(** * The Toy lexer (Ch1/include/toy/Lexer.h)

    A shallow embedding of [toy::Lexer] and [toy::LexerBuffer], and the
    properties of the tokenizer that its specification states.

    Conventions of the embedding.
    - A C++ [int] is a [Z].  The two counters [curLineNum] and [curCol] are
      only ever incremented; signed overflow is undefined in C++, so the
      embedding covers the executions in which they stay below 2^31.
    - A character read from the buffer is the [int] it converts to: the
      buffer is a [list Z].  [EOF] is [-1].
    - [Token] is an unscoped enumeration over [int]; [Token(c)] is defined
      for every [int], so a token is a [Z].
    - A [std::string] is a [string].
    - The loops of [getTok] are bounded by a fuel argument; running out of
      fuel is a result of its own, and [LexerBuffer] never reaches it
      (section [Termination]). *)

From Stdlib Require Import ZArith List Bool String Ascii Lia QArith.
From Stdlib Require Import DecimalString.
Import ListNotations.

Local Open Scope Z_scope.

(** ** Characters and the <cctype> predicates ("C" locale)

    The C predicates are defined on the values of [unsigned char] and on
    [EOF]; the embedding takes them to be false on every other [int], as
    the tables of the "C" locale do. *)

Definition chr (a : ascii) : Z := Z.of_N (N_of_ascii a).

Definition EOF : Z := -1.
Definition newline : Z := 10.          (* '\n' *)
Definition carriage_return : Z := 13.  (* '\r' *)

Definition isspace (c : Z) : bool := ((9 <=? c) && (c <=? 13)) || (c =? 32).
Definition isdigit (c : Z) : bool := (48 <=? c) && (c <=? 57).
Definition isalpha (c : Z) : bool :=
  ((65 <=? c) && (c <=? 90)) || ((97 <=? c) && (c <=? 122)).
Definition isalnum (c : Z) : bool := isalpha c || isdigit c.

(** [(char) c]: the byte that is stored in a [std::string]. *)
Definition to_char (c : Z) : ascii := ascii_of_N (Z.to_N (c mod 256)).

(** The [int]s of the characters of a 7-bit string literal. *)
Fixpoint codes (s : string) : list Z :=
  match s with
  | EmptyString => []
  | String a r => chr a :: codes r
  end.

(** [std::to_string(int)]: the decimal digits, with a minus sign below 0. *)
Definition to_string (n : Z) : string := NilZero.string_of_int (Z.to_int n).

(** ** strtod, on the texts the lexer hands to it

    The lexer only builds texts over the digits and the decimal point; on
    those, [strtod] converts the longest prefix of the shape
    digits [. digits] that holds a digit, and yields 0 when there is none.
    The embedding keeps the exact rational that the prefix denotes (the C
    function rounds it to the nearest double). *)

Definition digit_of (a : ascii) : option Z :=
  let c := chr a in if isdigit c then Some (c - 48) else None.

(** Leading digits of [s], folded into [acc]; their count; what follows. *)
Fixpoint read_digits (acc : Z) (n : nat) (s : string) : Z * nat * string :=
  match s with
  | EmptyString => (acc, n, s)
  | String a r =>
      match digit_of a with
      | Some d => read_digits (10 * acc + d) (S n) r
      | None => (acc, n, s)
      end
  end.

Definition strtod (s : string) : Q :=
  let '(ip, ni, rest) := read_digits 0 0 s in
  match rest with
  | String "."%char r =>
      let '(m, nf, _) := read_digits ip 0 r in
      match ni, nf with
      | O, O => 0%Q
      | _, _ => Qmake m (Z.to_pos (10 ^ Z.of_nat nf))
      end
  | _ => inject_Z ip
  end.

(** ** Results of a call *)

Inductive outcome (A : Type) : Type :=
| Done (a : A)            (* the call returns *)
| Abort (msg : string)    (* an [assert] fails: the process is aborted *)
| OutOfFuel.              (* the loop bound of the embedding is reached *)

Arguments Done {A} a.
Arguments Abort {A} msg.
Arguments OutOfFuel {A}.

Definition bind {A B : Type} (m : outcome A) (k : A -> outcome B) : outcome B :=
  match m with
  | Done a => k a
  | Abort msg => Abort msg
  | OutOfFuel => OutOfFuel
  end.

Notation "x <- m ;; k" := (bind m (fun x => k))
  (at level 61, m at next level, right associativity).

(** [assert(cond && msg)]: compiled out when NDEBUG is defined. *)
Definition assert_ (NDEBUG : bool) (cond : bool) (msg : string) : outcome unit :=
  if NDEBUG || cond then Done tt else Abort msg.

(** ** Locations and tokens *)

Record Location : Type := mkLocation {
  file : string;   (* the shared filename *)
  line : Z;
  col : Z
}.

Definition Token : Type := Z.

Definition tok_semicolon : Token := chr ";".
Definition tok_parenthese_open : Token := chr "(".
Definition tok_parenthese_close : Token := chr ")".
Definition tok_bracket_open : Token := chr "{".
Definition tok_bracket_close : Token := chr "}".
Definition tok_sbracket_open : Token := chr "[".
Definition tok_sbracket_close : Token := chr "]".
Definition tok_eof : Token := -1.
Definition tok_return : Token := -2.
Definition tok_var : Token := -3.
Definition tok_def : Token := -4.
Definition tok_identifier : Token := -5.
Definition tok_number : Token := -6.

(** ** The abstract lexer

    [Lexer] is an abstract class: the derived class supplies
    [readNextLine].  The section takes the state of the derived class and
    its [readNextLine] as parameters. *)

Section Lexer.

Variable Source : Type.

(** [virtual llvm::StringRef readNextLine() = 0]: the next line and the new
    state of the source; the empty line signals the end of the file. *)
Variable readNextLine : Source -> list Z * Source.

Record Lexer : Type := mkLexer {
  curTok : Token;            (* the last token read from the input *)
  lastLocation : Location;   (* location for [curTok] *)
  identifierStr : string;    (* the value of an identifier token *)
  numVal : Q;                (* the value of a number token *)
  last_char : Z;             (* the last value returned by [getNextChar] *)
  curLineNum : Z;
  curCol : Z;
  curLineBuffer : list Z;    (* what is left of the current line *)
  source : Source            (* the members of the derived class *)
}.

Definition with_curTok (t : Token) (lx : Lexer) : Lexer :=
  mkLexer t (lastLocation lx) (identifierStr lx) (numVal lx) (last_char lx)
          (curLineNum lx) (curCol lx) (curLineBuffer lx) (source lx).

Definition with_lastLocation (l : Location) (lx : Lexer) : Lexer :=
  mkLexer (curTok lx) l (identifierStr lx) (numVal lx) (last_char lx)
          (curLineNum lx) (curCol lx) (curLineBuffer lx) (source lx).

Definition with_identifierStr (s : string) (lx : Lexer) : Lexer :=
  mkLexer (curTok lx) (lastLocation lx) s (numVal lx) (last_char lx)
          (curLineNum lx) (curCol lx) (curLineBuffer lx) (source lx).

Definition with_numVal (v : Q) (lx : Lexer) : Lexer :=
  mkLexer (curTok lx) (lastLocation lx) (identifierStr lx) v (last_char lx)
          (curLineNum lx) (curCol lx) (curLineBuffer lx) (source lx).

Definition with_last_char (c : Z) (lx : Lexer) : Lexer :=
  mkLexer (curTok lx) (lastLocation lx) (identifierStr lx) (numVal lx) c
          (curLineNum lx) (curCol lx) (curLineBuffer lx) (source lx).

Definition with_curLineNum (n : Z) (lx : Lexer) : Lexer :=
  mkLexer (curTok lx) (lastLocation lx) (identifierStr lx) (numVal lx)
          (last_char lx) n (curCol lx) (curLineBuffer lx) (source lx).

Definition with_curCol (n : Z) (lx : Lexer) : Lexer :=
  mkLexer (curTok lx) (lastLocation lx) (identifierStr lx) (numVal lx)
          (last_char lx) (curLineNum lx) n (curLineBuffer lx) (source lx).

Definition with_buffer (b : list Z) (s : Source) (lx : Lexer) : Lexer :=
  mkLexer (curTok lx) (lastLocation lx) (identifierStr lx) (numVal lx)
          (last_char lx) (curLineNum lx) (curCol lx) b s.

(** The constructor and the default member initializers. *)
Definition Lexer_new (filename : string) (src : Source) : Lexer :=
  {| curTok := tok_eof;
     lastLocation := mkLocation filename 0 0;
     identifierStr := EmptyString;
     numVal := 0%Q;
     last_char := chr " ";
     curLineNum := 0;
     curCol := 0;
     curLineBuffer := [newline];
     source := src |}.

Definition getCurToken (lx : Lexer) : Token := curTok lx.
Definition getLastLocation (lx : Lexer) : Location := lastLocation lx.
Definition getLine (lx : Lexer) : Z := curLineNum lx.
Definition getCol (lx : Lexer) : Z := curCol lx.

(** [getNextChar]: the next character of the stream, or [EOF]. *)
Definition getNextChar (lx : Lexer) : Z * Lexer :=
  match curLineBuffer lx with
  | [] => (EOF, lx)
  | next_char :: rest =>
      let lx := with_curCol (curCol lx + 1) lx in
      let lx :=
        match rest with
        | [] => let (l, s) := readNextLine (source lx) in with_buffer l s lx
        | _ :: _ => with_buffer rest (source lx) lx
        end in
      let lx :=
        if next_char =? newline
        then with_curCol 0 (with_curLineNum (curLineNum lx + 1) lx)
        else lx in
      (next_char, lx)
  end.

(** The statement [last_char = Token(getNextChar())]. *)
Definition readChar (lx : Lexer) : Lexer :=
  let (c, lx') := getNextChar lx in with_last_char c lx'.

(** [while (isspace(last_char)) last_char = Token(getNextChar());] *)
Fixpoint skipWhitespace (fuel : nat) (lx : Lexer) : outcome Lexer :=
  match fuel with
  | O => OutOfFuel
  | S fuel' =>
      if isspace (last_char lx) then skipWhitespace fuel' (readChar lx)
      else Done lx
  end.

(** [while (isalnum((last_char = Token(getNextChar()))) || last_char == '_')
      identifierStr += (char) last_char;] *)
Fixpoint lexIdentifier (fuel : nat) (lx : Lexer) : outcome Lexer :=
  match fuel with
  | O => OutOfFuel
  | S fuel' =>
      let lx := readChar lx in
      if isalnum (last_char lx) || (last_char lx =? chr "_")
      then lexIdentifier fuel'
             (with_identifierStr
                (identifierStr lx ++ String (to_char (last_char lx)) "") lx)
      else Done lx
  end.

(** [do { numStr += std::to_string(last_char);
          last_char = Token(getNextChar());
     } while (isdigit(last_char) || last_char == '.');]
    [last_char] is a [Token], which promotes to [int]: [std::to_string]
    renders its numeric value. *)
Fixpoint lexNumber (fuel : nat) (numStr : string) (lx : Lexer)
  : outcome (string * Lexer) :=
  match fuel with
  | O => OutOfFuel
  | S fuel' =>
      let numStr := (numStr ++ to_string (last_char lx))%string in
      let lx := readChar lx in
      if isdigit (last_char lx) || (last_char lx =? chr ".")
      then lexNumber fuel' numStr lx
      else Done (numStr, lx)
  end.

(** [do { last_char = Token(getNextChar()); }
    while (last_char != EOF && last_char != '\n' && last_char != '\r');] *)
Fixpoint skipComment (fuel : nat) (lx : Lexer) : outcome Lexer :=
  match fuel with
  | O => OutOfFuel
  | S fuel' =>
      let lx := readChar lx in
      if negb (last_char lx =? EOF) && negb (last_char lx =? newline)
         && negb (last_char lx =? carriage_return)
      then skipComment fuel' lx
      else Done lx
  end.

(** The keyword tests that follow the identifier loop. *)
Definition keywordOrIdentifier (s : string) : Token :=
  if String.eqb s "return" then tok_return
  else if String.eqb s "def" then tok_def
  else if String.eqb s "var" then tok_var
  else tok_identifier.

(** The end of [getTok]: the end-of-file check and the one-character token. *)
Definition eofOrChar (lx : Lexer) : outcome (Token * Lexer) :=
  if last_char lx =? EOF then Done (tok_eof, lx)
  else
    let thisChar := last_char lx in
    Done (thisChar, readChar lx).

(** [getTok]: the next token of the input. *)
Fixpoint getTok (fuel : nat) (lx : Lexer) : outcome (Token * Lexer) :=
  match fuel with
  | O => OutOfFuel
  | S fuel' =>
      lx <- skipWhitespace fuel lx ;;
      let lx :=
        with_lastLocation
          (mkLocation (file (lastLocation lx)) (curLineNum lx) (curCol lx)) lx in
      if isalpha (last_char lx) then
        let lx := with_identifierStr (String (to_char (last_char lx)) "") lx in
        lx <- lexIdentifier fuel lx ;;
        Done (keywordOrIdentifier (identifierStr lx), lx)
      else if isdigit (last_char lx) || (last_char lx =? chr ".") then
        r <- lexNumber fuel "" lx ;;
        Done (tok_number, with_numVal (strtod (fst r)) (snd r))
      else if last_char lx =? chr "#" then
        lx <- skipComment fuel lx ;;
        if negb (last_char lx =? EOF) then getTok fuel' lx
        else eofOrChar lx
      else eofOrChar lx
  end.

(** [Token getNextToken() { return curTok = getTok(); }] *)
Definition getNextToken (fuel : nat) (lx : Lexer) : outcome (Token * Lexer) :=
  r <- getTok fuel lx ;;
  Done (fst r, with_curTok (fst r) (snd r)).

(** [consume]: asserts that the current token is the expected one, then
    moves to the next token. *)
Definition consume (NDEBUG : bool) (fuel : nat) (tok : Token) (lx : Lexer)
  : outcome Lexer :=
  _ <- assert_ NDEBUG (tok =? curTok lx) "consume Token mismatch expectation" ;;
  r <- getNextToken fuel lx ;;
  Done (snd r).

Definition getId (NDEBUG : bool) (lx : Lexer) : outcome string :=
  _ <- assert_ NDEBUG (curTok lx =? tok_identifier) "curTok == tok_identifier" ;;
  Done (identifierStr lx).

Definition getValue (NDEBUG : bool) (lx : Lexer) : outcome Q :=
  _ <- assert_ NDEBUG (curTok lx =? tok_number) "curTok == tok_number" ;;
  Done (numVal lx).

(** [n] successive calls of [getNextToken]: the tokens, in order. *)
Fixpoint getNextTokens (fuel n : nat) (lx : Lexer)
  : outcome (list Token * Lexer) :=
  match n with
  | O => Done ([], lx)
  | S n' =>
      r <- getNextToken fuel lx ;;
      rs <- getNextTokens fuel n' (snd r) ;;
      Done (fst r :: fst rs, snd rs)
  end.

(** The characters the scanner sees from [lx] on: the lookahead, then what
    the next [readChar]s deliver. *)
Fixpoint lookahead (n : nat) (lx : Lexer) : list Z :=
  match n with
  | O => []
  | S n' => last_char lx :: lookahead n' (readChar lx)
  end.

Fixpoint readChars (n : nat) (lx : Lexer) : Lexer :=
  match n with
  | O => lx
  | S n' => readChars n' (readChar lx)
  end.

End Lexer.

Arguments mkLexer {Source}.
Arguments curTok {Source}.
Arguments lastLocation {Source}.
Arguments identifierStr {Source}.
Arguments numVal {Source}.
Arguments last_char {Source}.
Arguments curLineNum {Source}.
Arguments curCol {Source}.
Arguments curLineBuffer {Source}.
Arguments source {Source}.
Arguments with_curTok {Source}.
Arguments with_lastLocation {Source}.
Arguments with_identifierStr {Source}.
Arguments with_numVal {Source}.
Arguments with_last_char {Source}.
Arguments with_curLineNum {Source}.
Arguments with_curCol {Source}.
Arguments with_buffer {Source}.
Arguments Lexer_new {Source}.
Arguments getCurToken {Source}.
Arguments getLastLocation {Source}.
Arguments getLine {Source}.
Arguments getCol {Source}.
Arguments getNextChar {Source}.
Arguments readChar {Source}.
Arguments skipWhitespace {Source}.
Arguments lexIdentifier {Source}.
Arguments lexNumber {Source}.
Arguments skipComment {Source}.
Arguments eofOrChar {Source}.
Arguments getTok {Source}.
Arguments getNextToken {Source}.
Arguments consume {Source}.
Arguments getId {Source}.
Arguments getValue {Source}.
Arguments getNextTokens {Source}.
Arguments lookahead {Source}.
Arguments readChars {Source}.

(** ** The lexer over a buffer in memory

    The state of [LexerBuffer] is the pointer [current]; [end] is fixed.
    It is modelled by the characters stored from [current] up to and
    including [end] ([readNextLine] tests [current <= end] before it reads
    [*current]).  For a NUL-terminated buffer, [end] points to the NUL. *)

Fixpoint LexerBuffer_readNextLine (mem : list Z) : list Z * list Z :=
  match mem with
  | [] => ([], [])                         (* current > end *)
  | c :: rest =>
      if c =? 0 then ([], mem)             (* *current == 0 *)
      else if c =? newline then ([c], rest) (* the newline ends the line *)
      else let (l, r) := LexerBuffer_readNextLine rest in (c :: l, r)
  end.

Definition LexerBuffer : Type := Lexer (list Z).

Definition LexerBuffer_new (mem : list Z) (filename : string) : LexerBuffer :=
  Lexer_new filename mem.

(** A lexer over the NUL-terminated buffer that holds [s]. *)
Definition lexerOf (s : list Z) : LexerBuffer :=
  LexerBuffer_new (s ++ [0]) "input".

(** ** Shapes of input, and what is left of a buffer *)

(** A character of the tail of an identifier: [[A-Za-z0-9_]]. *)
Definition identifier_char (c : Z) : bool := isalnum c || (c =? chr "_").

(** A string of the shape [[A-Za-z][A-Za-z0-9_]*]. *)
Definition identifier_shaped (s : string) : bool :=
  match codes s with
  | [] => false
  | c :: cs => isalpha c && forallb identifier_char cs
  end.

(** A character of a number: [[0-9.]]. *)
Definition number_char (c : Z) : bool := isdigit c || (c =? chr ".").

(** The text [lexNumber] builds from the characters [cs]: the decimal
    rendering of each character's [int] value, one after the other. *)
Fixpoint code_digits (cs : list Z) : string :=
  match cs with
  | [] => EmptyString
  | c :: r => (to_string c ++ code_digits r)%string
  end.

(** Space, tab, newline, carriage return. *)
Definition blank_char (c : Z) : bool :=
  (c =? chr " ") || (c =? 9) || (c =? newline) || (c =? carriage_return).

(** The loop condition of [skipComment]. *)
Definition in_comment (c : Z) : bool :=
  negb (c =? EOF) && negb (c =? newline) && negb (c =? carriage_return).

(** What ends a line comment. *)
Definition ends_comment (c : Z) : bool :=
  (c =? newline) || (c =? carriage_return).

(** Text made of white space and line comments only; [in_comment] tells
    whether the text starts inside a comment. *)
Fixpoint blank (in_comment : bool) (cs : list Z) : bool :=
  match cs with
  | [] => true
  | c :: r =>
      if in_comment then blank (negb (ends_comment c)) r
      else if c =? chr "#" then blank true r
      else blank_char c && blank false r
  end.

(** The characters of a buffer that [LexerBuffer] will deliver: those that
    come before the first NUL. *)
Fixpoint live (mem : list Z) : list Z :=
  match mem with
  | [] => []
  | c :: r => if c =? 0 then [] else c :: live r
  end.

(** The characters a [LexerBuffer] has still to deliver. *)
Definition pending (lx : LexerBuffer) : list Z :=
  curLineBuffer lx ++ live (source lx).

(** The line buffer is only empty at the end of the input. *)
Definition consistent (lx : LexerBuffer) : Prop :=
  curLineBuffer lx = [] -> live (source lx) = [].

(** A bound on the work a [LexerBuffer] has left. *)
Definition budget (lx : LexerBuffer) : nat :=
  (List.length (curLineBuffer lx) + List.length (source lx)
   + (if (last_char lx =? EOF)%Z then 0 else 1))%nat.

(** The lexer once the end of the input was returned and asked for again:
    the location is the current position, nothing else has moved. *)
Definition atEOF {Source : Type} (lx : Lexer Source) : Lexer Source :=
  with_curTok tok_eof
    (with_lastLocation
       (mkLocation (file (lastLocation lx)) (curLineNum lx) (curCol lx)) lx).

(** The string of a list of characters. *)
Fixpoint text (cs : list Z) : string :=
  match cs with
  | [] => EmptyString
  | c :: r => String (to_char c) (text r)
  end.

Definition nl : string := String "010" EmptyString.

(** ** The names of the tokens *)

Module toy.

(** What a call of a function that has to return a name does: it returns
    one, or control reaches the end of the function without a [return]
    statement, and then the behaviour of the program is undefined (nothing
    is known of what the caller receives). *)
Inductive result : Type :=
| Returns (name : string)
| Undefined.

(** [std::string_view to_string(const Token &tok)]: a switch over the
    enumerators, with no default and nothing behind it.  A token that is
    no enumerator (the lexer returns any other character as a token of its
    own) matches no case. *)
Definition to_string (tok : Token) : result :=
  if tok =? tok_semicolon then Returns "tok_semicolon"
  else if tok =? tok_parenthese_open then Returns "tok_parenthese_open"
  else if tok =? tok_parenthese_close then Returns "tok_parenthese_close"
  else if tok =? tok_bracket_open then Returns "tok_bracket_open"
  else if tok =? tok_bracket_close then Returns "tok_bracket_close"
  else if tok =? tok_sbracket_open then Returns "tok_sbracket_open"
  else if tok =? tok_sbracket_close then Returns "tok_sbracket_close"
  else if tok =? tok_eof then Returns "tok_eof"
  else if tok =? tok_return then Returns "tok_return"
  else if tok =? tok_var then Returns "tok_var"
  else if tok =? tok_def then Returns "tok_def"
  else if tok =? tok_identifier then Returns "tok_identifier"
  else if tok =? tok_number then Returns "tok_number"
  else Undefined.

End toy.


(** ** What a scan passes over *)

(** The text a call of [getTok] reads through without returning: white
    space and whole comments.  [passes_over in_comment cs] is [Some b]
    when [cs] is such a text, [b] telling whether it ends inside a
    comment, and [None] when [cs] holds the first character of a token, or
    a character of the value of [EOF] inside a comment (the comment loop
    stops there).  [in_comment] tells whether [cs] starts inside a
    comment. *)
Fixpoint passes_over (in_comment : bool) (cs : list Z) : option bool :=
  match cs with
  | [] => Some in_comment
  | c :: r =>
      if in_comment then
        if c =? EOF then None else passes_over (negb (ends_comment c)) r
      else if c =? chr "#" then passes_over true r
      else if isspace c then passes_over false r
      else None
  end.

(** ** Positions, and results without the lexer *)

(** The line and the column after the characters [cs], from line [ln] and
    column [cl]: a newline starts a line at column 0, any other character
    is one column further. *)
Fixpoint position_after (cs : list Z) (ln cl : Z) : Z * Z :=
  match cs with
  | [] => (ln, cl)
  | c :: r =>
      if c =? newline then position_after r (ln + 1) 0
      else position_after r ln (cl + 1)
  end.

(** The result of a call, without the state it leaves. *)
Definition outcome_map {A B : Type} (f : A -> B) (m : outcome A) : outcome B :=
  match m with
  | Done a => Done (f a)
  | Abort msg => Abort msg
  | OutOfFuel => OutOfFuel
  end.

(** Two calls with the same kind of result, and related values when they
    return. *)
Definition outcome_rel {A B : Type} (P : A -> B -> Prop)
  (m1 : outcome A) (m2 : outcome B) : Prop :=
  match m1, m2 with
  | Done a, Done b => P a b
  | Abort x, Abort y => x = y
  | OutOfFuel, OutOfFuel => True
  | _, _ => False
  end.

(** Two lexers over buffers that differ at most in what is stored behind
    the first NUL of their buffers. *)
Definition same_text (a b : LexerBuffer) : Prop :=
  curTok a = curTok b
  /\ lastLocation a = lastLocation b
  /\ identifierStr a = identifierStr b
  /\ numVal a = numVal b
  /\ last_char a = last_char b
  /\ curLineNum a = curLineNum b
  /\ curCol a = curCol b
  /\ curLineBuffer a = curLineBuffer b
  /\ live (source a) = live (source b).

(** * Properties *)

(** ** The constructor *)

(** C8: a freshly constructed lexer has the end-of-input token as its
    current token, line and column 0, and the location (filename, 0, 0). *)
Theorem Lexer_new_initial :
  forall (Source : Type) (filename : string) (src : Source),
    getCurToken (Lexer_new filename src) = tok_eof
    /\ getLine (Lexer_new filename src) = 0
    /\ getCol (Lexer_new filename src) = 0
    /\ getLastLocation (Lexer_new filename src) = mkLocation filename 0 0.
Proof.
  intros Source filename src. repeat split.
Qed.

Lemma LexerBuffer_new_initial :
  forall (mem : list Z) (filename : string),
    getCurToken (LexerBuffer_new mem filename) = tok_eof
    /\ getLastLocation (LexerBuffer_new mem filename) = mkLocation filename 0 0.
Proof.
  intros mem filename. split; reflexivity.
Qed.

(** ** One character at a time *)

Section Characters.

Variable Source : Type.
Variable R : Source -> list Z * Source.   (* the source's [readNextLine] *)

Lemma getNextChar_empty :
  forall lx : Lexer Source,
    curLineBuffer lx = [] -> getNextChar R lx = (EOF, lx).
Proof.
  intros lx H. unfold getNextChar. rewrite H. reflexivity.
Qed.

(** What [getNextChar] does to the counters when a character is left. *)
Lemma getNextChar_cons :
  forall (lx : Lexer Source) (c : Z) (rest : list Z),
    curLineBuffer lx = c :: rest ->
    fst (getNextChar R lx) = c
    /\ curLineNum (snd (getNextChar R lx))
       = (if c =? newline then curLineNum lx + 1 else curLineNum lx)
    /\ curCol (snd (getNextChar R lx))
       = (if c =? newline then 0 else curCol lx + 1).
Proof.
  intros lx c rest H. unfold getNextChar. rewrite H.
  destruct rest as [|d rest']; simpl;
    [destruct (R (source lx)) as [l s]|];
    destruct (c =? newline); simpl; auto.
Qed.

(** [getNextChar] leaves the token, its location and its values alone. *)
Lemma getNextChar_frame :
  forall lx : Lexer Source,
    curTok (snd (getNextChar R lx)) = curTok lx
    /\ lastLocation (snd (getNextChar R lx)) = lastLocation lx
    /\ identifierStr (snd (getNextChar R lx)) = identifierStr lx
    /\ numVal (snd (getNextChar R lx)) = numVal lx
    /\ last_char (snd (getNextChar R lx)) = last_char lx.
Proof.
  intros lx. unfold getNextChar.
  destruct (curLineBuffer lx) as [|c rest]; simpl; auto.
  destruct rest as [|d rest']; simpl;
    [destruct (R (source lx)) as [l s]|];
    destruct (c =? newline); simpl; auto.
Qed.

Lemma getNextChar_line_mono :
  forall lx : Lexer Source,
    curLineNum lx <= curLineNum (snd (getNextChar R lx)).
Proof.
  intros lx. destruct (curLineBuffer lx) as [|c rest] eqn:E.
  - rewrite (getNextChar_empty lx E). simpl. lia.
  - destruct (getNextChar_cons lx c rest E) as (_ & Hl & _).
    rewrite Hl. destruct (c =? newline); lia.
Qed.

Lemma readChar_line :
  forall lx : Lexer Source, curLineNum lx <= curLineNum (readChar R lx).
Proof.
  intros lx. unfold readChar.
  pose proof (getNextChar_line_mono lx) as H.
  destruct (getNextChar R lx) as [c lx']. simpl in *. exact H.
Qed.

Lemma readChar_frame :
  forall lx : Lexer Source,
    curTok (readChar R lx) = curTok lx
    /\ lastLocation (readChar R lx) = lastLocation lx
    /\ identifierStr (readChar R lx) = identifierStr lx
    /\ numVal (readChar R lx) = numVal lx.
Proof.
  intros lx. unfold readChar.
  pose proof (getNextChar_frame lx) as H.
  destruct (getNextChar R lx) as [c lx']. simpl in *. tauto.
Qed.

Lemma readChars_line :
  forall (n : nat) (lx : Lexer Source),
    curLineNum lx <= curLineNum (readChars R n lx).
Proof.
  induction n as [|n IH]; intros lx; simpl.
  - lia.
  - pose proof (readChar_line lx). pose proof (IH (readChar R lx)). lia.
Qed.

(** A step of [getNextChar] at the end of the input returns [EOF] and
    changes nothing; a step that takes a newline adds one to the line
    counter and sets the column counter to zero; a step that takes another
    character leaves the line counter and adds one to the column
    counter. *)
Lemma getNextChar_counters :
  forall (lx : Lexer Source) (n : nat),
    match curLineBuffer lx with
    | [] => getNextChar R lx = (EOF, lx)
    | c :: _ =>
        fst (getNextChar R lx) = c
        /\ curLineNum (snd (getNextChar R lx))
           = (if c =? newline then curLineNum lx + 1 else curLineNum lx)
        /\ curCol (snd (getNextChar R lx))
           = (if c =? newline then 0 else curCol lx + 1)
    end
    /\ curLineNum lx <= curLineNum (readChars R n lx).
Proof.
  intros lx n. split.
  - destruct (curLineBuffer lx) as [|c rest] eqn:E.
    + apply getNextChar_empty; assumption.
    + apply (getNextChar_cons lx c rest E).
  - apply readChars_line.
Qed.

End Characters.

(** ** The loops of the scanner *)

Section Scanning.

Variable Source : Type.
Variable R : Source -> list Z * Source.   (* the source's [readNextLine] *)

Lemma getTok_S :
  forall (fuel : nat) (lx : Lexer Source),
    getTok R (S fuel) lx =
    (lx <- skipWhitespace R (S fuel) lx ;;
     let lx :=
       with_lastLocation
         (mkLocation (file (lastLocation lx)) (curLineNum lx) (curCol lx)) lx in
     if isalpha (last_char lx) then
       let lx := with_identifierStr (String (to_char (last_char lx)) "") lx in
       lx <- lexIdentifier R (S fuel) lx ;;
       Done (keywordOrIdentifier (identifierStr lx), lx)
     else if isdigit (last_char lx) || (last_char lx =? chr ".") then
       r <- lexNumber R (S fuel) "" lx ;;
       Done (tok_number, with_numVal (strtod (fst r)) (snd r))
     else if last_char lx =? chr "#" then
       lx <- skipComment R (S fuel) lx ;;
       if negb (last_char lx =? EOF) then getTok R fuel lx
       else eofOrChar R lx
     else eofOrChar R lx).
Proof. reflexivity. Qed.

(** *** More fuel does not change a result *)

Lemma skipWhitespace_fuel :
  forall (fuel : nat) (lx r : Lexer Source),
    skipWhitespace R fuel lx = Done r ->
    forall fuel', (fuel <= fuel')%nat -> skipWhitespace R fuel' lx = Done r.
Proof.
  induction fuel as [|fuel IH]; intros lx r H fuel' Hle; [discriminate|].
  destruct fuel' as [|fuel']; [lia|]. simpl in *.
  destruct (isspace (last_char lx)); [|exact H].
  apply IH; [exact H | lia].
Qed.

Lemma lexIdentifier_fuel :
  forall (fuel : nat) (lx r : Lexer Source),
    lexIdentifier R fuel lx = Done r ->
    forall fuel', (fuel <= fuel')%nat -> lexIdentifier R fuel' lx = Done r.
Proof.
  induction fuel as [|fuel IH]; intros lx r H fuel' Hle; [discriminate|].
  destruct fuel' as [|fuel']; [lia|]. simpl in *.
  destruct (isalnum (last_char (readChar R lx))
            || (last_char (readChar R lx) =? chr "_")); [|exact H].
  apply IH; [exact H | lia].
Qed.

Lemma lexNumber_fuel :
  forall (fuel : nat) (numStr : string) (lx : Lexer Source) r,
    lexNumber R fuel numStr lx = Done r ->
    forall fuel', (fuel <= fuel')%nat -> lexNumber R fuel' numStr lx = Done r.
Proof.
  induction fuel as [|fuel IH]; intros numStr lx r H fuel' Hle; [discriminate|].
  destruct fuel' as [|fuel']; [lia|]. simpl in *.
  destruct (isdigit (last_char (readChar R lx))
            || (last_char (readChar R lx) =? chr ".")); [|exact H].
  apply IH; [exact H | lia].
Qed.

Lemma skipComment_fuel :
  forall (fuel : nat) (lx r : Lexer Source),
    skipComment R fuel lx = Done r ->
    forall fuel', (fuel <= fuel')%nat -> skipComment R fuel' lx = Done r.
Proof.
  induction fuel as [|fuel IH]; intros lx r H fuel' Hle; [discriminate|].
  destruct fuel' as [|fuel']; [lia|]. simpl in *.
  destruct (negb (last_char (readChar R lx) =? EOF)
            && negb (last_char (readChar R lx) =? newline)
            && negb (last_char (readChar R lx) =? carriage_return)); [|exact H].
  apply IH; [exact H | lia].
Qed.

Lemma getTok_fuel :
  forall (fuel : nat) (lx : Lexer Source) r,
    getTok R fuel lx = Done r ->
    forall fuel', (fuel <= fuel')%nat -> getTok R fuel' lx = Done r.
Proof.
  induction fuel as [|fuel IH]; intros lx r H fuel' Hle; [discriminate|].
  destruct fuel' as [|fuel']; [lia|]. rewrite getTok_S in *.
  destruct (skipWhitespace R (S fuel) lx) as [lx1| |] eqn:E1; try discriminate.
  rewrite (skipWhitespace_fuel _ _ _ E1 (S fuel')) by lia.
  cbn [bind] in *. cbv zeta in *.
  set (lx2 := with_lastLocation _ lx1) in *.
  destruct (isalpha (last_char lx2)).
  - destruct (lexIdentifier R (S fuel) _) as [lx3| |] eqn:E2; try discriminate.
    rewrite (lexIdentifier_fuel _ _ _ E2 (S fuel')) by lia. exact H.
  - destruct (isdigit (last_char lx2) || (last_char lx2 =? chr ".")).
    + destruct (lexNumber R (S fuel) _ _) as [p| |] eqn:E2; try discriminate.
      rewrite (lexNumber_fuel _ _ _ _ E2 (S fuel')) by lia. exact H.
    + destruct (last_char lx2 =? chr "#"); [|exact H].
      destruct (skipComment R (S fuel) lx2) as [lx3| |] eqn:E2; try discriminate.
      rewrite (skipComment_fuel _ _ _ E2 (S fuel')) by lia.
      cbn [bind] in *.
      destruct (negb (last_char lx3 =? EOF)); [|exact H].
      apply IH; [exact H | lia].
Qed.

Lemma getNextToken_fuel :
  forall (fuel : nat) (lx : Lexer Source) r,
    getNextToken R fuel lx = Done r ->
    forall fuel', (fuel <= fuel')%nat -> getNextToken R fuel' lx = Done r.
Proof.
  unfold getNextToken. intros fuel lx r H fuel' Hle.
  destruct (getTok R fuel lx) as [p| |] eqn:E; try discriminate.
  rewrite (getTok_fuel _ _ _ E fuel' Hle). exact H.
Qed.

Lemma getNextTokens_fuel :
  forall (n fuel : nat) (lx : Lexer Source) r,
    getNextTokens R fuel n lx = Done r ->
    forall fuel', (fuel <= fuel')%nat -> getNextTokens R fuel' n lx = Done r.
Proof.
  induction n as [|n IH]; intros fuel lx r H fuel' Hle; simpl in *; [exact H|].
  destruct (getNextToken R fuel lx) as [p| |] eqn:E; try discriminate.
  rewrite (getNextToken_fuel _ _ _ E fuel' Hle). cbn [bind] in *.
  destruct (getNextTokens R fuel n (snd p)) as [q| |] eqn:E2; try discriminate.
  rewrite (IH _ _ _ E2 fuel' Hle). exact H.
Qed.

End Scanning.

(** ** What a call of [getTok] preserves *)

Section Invariants.

Variable Source : Type.
Variable R : Source -> list Z * Source.   (* the source's [readNextLine] *)

Lemma skipWhitespace_inv :
  forall (fuel : nat) (lx lx' : Lexer Source),
    skipWhitespace R fuel lx = Done lx' ->
    curLineNum lx <= curLineNum lx'
    /\ lastLocation lx' = lastLocation lx
    /\ isspace (last_char lx') = false.
Proof.
  induction fuel as [|fuel IH]; intros lx lx' H; [discriminate|].
  simpl in H. destruct (isspace (last_char lx)) eqn:E.
  - destruct (IH _ _ H) as (Hl & Hloc & Hs).
    pose proof (readChar_line _ R lx).
    destruct (readChar_frame _ R lx) as (_ & Hloc' & _).
    repeat split; [lia | congruence | exact Hs].
  - injection H as <-. repeat split; [lia | exact E].
Qed.

Lemma lexIdentifier_inv :
  forall (fuel : nat) (lx lx' : Lexer Source),
    lexIdentifier R fuel lx = Done lx' ->
    curLineNum lx <= curLineNum lx' /\ lastLocation lx' = lastLocation lx.
Proof.
  induction fuel as [|fuel IH]; intros lx lx' H; [discriminate|].
  simpl in H.
  pose proof (readChar_line _ R lx).
  destruct (readChar_frame _ R lx) as (_ & Hloc' & _).
  destruct (isalnum (last_char (readChar R lx))
            || (last_char (readChar R lx) =? chr "_")).
  - destruct (IH _ _ H) as (Hl & Hloc). simpl in Hl, Hloc.
    split; [lia | congruence].
  - injection H as <-. split; [lia | congruence].
Qed.

Lemma lexNumber_inv :
  forall (fuel : nat) (numStr : string) (lx : Lexer Source) r,
    lexNumber R fuel numStr lx = Done r ->
    curLineNum lx <= curLineNum (snd r)
    /\ lastLocation (snd r) = lastLocation lx.
Proof.
  induction fuel as [|fuel IH]; intros numStr lx r H; [discriminate|].
  simpl in H.
  pose proof (readChar_line _ R lx).
  destruct (readChar_frame _ R lx) as (_ & Hloc' & _).
  destruct (isdigit (last_char (readChar R lx))
            || (last_char (readChar R lx) =? chr ".")).
  - destruct (IH _ _ _ H) as (Hl & Hloc). split; [lia | congruence].
  - injection H as <-. simpl. split; [lia | congruence].
Qed.

Lemma skipComment_inv :
  forall (fuel : nat) (lx lx' : Lexer Source),
    skipComment R fuel lx = Done lx' ->
    curLineNum lx <= curLineNum lx' /\ lastLocation lx' = lastLocation lx.
Proof.
  induction fuel as [|fuel IH]; intros lx lx' H; [discriminate|].
  simpl in H.
  pose proof (readChar_line _ R lx).
  destruct (readChar_frame _ R lx) as (_ & Hloc' & _).
  destruct (negb (last_char (readChar R lx) =? EOF)
            && negb (last_char (readChar R lx) =? newline)
            && negb (last_char (readChar R lx) =? carriage_return)).
  - destruct (IH _ _ H) as (Hl & Hloc). split; [lia | congruence].
  - injection H as <-. split; [lia | congruence].
Qed.

Lemma keywordOrIdentifier_not_eof :
  forall s : string, keywordOrIdentifier s <> tok_eof.
Proof.
  intros s. unfold keywordOrIdentifier.
  destruct (String.eqb s "return"); [discriminate|].
  destruct (String.eqb s "def"); [discriminate|].
  destruct (String.eqb s "var"); discriminate.
Qed.

Lemma eofOrChar_inv :
  forall (lx : Lexer Source) (t : Token) (lx' : Lexer Source),
    eofOrChar R lx = Done (t, lx') ->
    curLineNum lx <= curLineNum lx'
    /\ lastLocation lx' = lastLocation lx
    /\ (t = tok_eof -> last_char lx' = EOF).
Proof.
  intros lx t lx' H. unfold eofOrChar in H.
  destruct (last_char lx =? EOF) eqn:E.
  - injection H as <- <-. apply Z.eqb_eq in E. repeat split; [lia | auto].
  - injection H as <- <-. apply Z.eqb_neq in E.
    pose proof (readChar_line _ R lx).
    destruct (readChar_frame _ R lx) as (_ & Hloc' & _).
    repeat split; [lia | exact Hloc' | ].
    intros Ht. exfalso. apply E. exact Ht.
Qed.

(** A call of [getTok] that returns: the location it records is taken after
    the white space, the line counter does not decrease, and the
    end-of-input token is only returned with [EOF] as the lookahead. *)
Lemma getTok_inv :
  forall (fuel : nat) (lx : Lexer Source) (t : Token) (lx' : Lexer Source),
    getTok R fuel lx = Done (t, lx') ->
    exists lx1,
      skipWhitespace R fuel lx = Done lx1
      /\ curLineNum lx1 <= line (lastLocation lx')
      /\ curLineNum lx1 <= curLineNum lx'
      /\ (t = tok_eof -> last_char lx' = EOF).
Proof.
  induction fuel as [|fuel IH]; intros lx t lx' H; [discriminate|].
  rewrite getTok_S in H.
  destruct (skipWhitespace R (S fuel) lx) as [lx1| |] eqn:E1; try discriminate.
  exists lx1. split; [reflexivity|].
  cbn [bind] in H. cbv zeta in H.
  set (lx2 := with_lastLocation _ lx1) in *.
  assert (Hl2 : curLineNum lx2 = curLineNum lx1) by reflexivity.
  assert (Hloc2 : line (lastLocation lx2) = curLineNum lx1) by reflexivity.
  destruct (isalpha (last_char lx2)).
  - destruct (lexIdentifier R (S fuel) _) as [lx3| |] eqn:E2; try discriminate.
    injection H as <- <-.
    destruct (lexIdentifier_inv _ _ _ E2) as (Hl & Hloc). simpl in Hl, Hloc.
    rewrite Hloc. simpl. repeat split; try lia.
    intros Ht. exfalso. exact (keywordOrIdentifier_not_eof _ Ht).
  - destruct (isdigit (last_char lx2) || (last_char lx2 =? chr ".")).
    + destruct (lexNumber R (S fuel) _ _) as [p| |] eqn:E2; try discriminate.
      injection H as <- <-.
      destruct (lexNumber_inv _ _ _ _ E2) as (Hl & Hloc).
      simpl. rewrite Hloc. simpl. repeat split; try lia. discriminate.
    + destruct (last_char lx2 =? chr "#").
      * destruct (skipComment R (S fuel) lx2) as [lx3| |] eqn:E2;
          try discriminate.
        cbn [bind] in H.
        destruct (skipComment_inv _ _ _ E2) as (Hl & Hloc).
        destruct (negb (last_char lx3 =? EOF)).
        -- destruct (IH _ _ _ H) as (lx4 & E4 & H1 & H2 & H3).
           destruct (skipWhitespace_inv _ _ _ E4) as (Hl4 & _).
           repeat split; try lia; try exact H3; auto.
        -- destruct (eofOrChar_inv _ _ _ H) as (H1 & H2 & H3).
           rewrite H2, Hloc. repeat split; try lia; try exact H3; auto.
      * destruct (eofOrChar_inv _ _ _ H) as (H1 & H2 & H3).
        rewrite H2. repeat split; try lia; try exact H3; auto.
Qed.

(** With [EOF] as the lookahead, [getTok] returns the end-of-input token
    and only records the location. *)
Lemma getTok_at_EOF :
  forall (fuel : nat) (lx : Lexer Source),
    last_char lx = EOF ->
    getTok R (S fuel) lx =
    Done (tok_eof,
          with_lastLocation
            (mkLocation (file (lastLocation lx)) (curLineNum lx) (curCol lx))
            lx).
Proof.
  intros fuel lx H. rewrite getTok_S.
  assert (E : skipWhitespace R (S fuel) lx = Done lx)
    by (simpl; rewrite H; reflexivity).
  rewrite E. cbn [bind]. cbv zeta. unfold eofOrChar.
  cbn [last_char with_lastLocation]. rewrite H. reflexivity.
Qed.

Lemma getNextToken_at_EOF :
  forall (fuel : nat) (lx : Lexer Source),
    last_char lx = EOF ->
    getNextToken R (S fuel) lx = Done (tok_eof, atEOF lx).
Proof.
  intros fuel lx H. unfold getNextToken. rewrite (getTok_at_EOF fuel lx H).
  reflexivity.
Qed.

Lemma getNextTokens_at_EOF :
  forall (n fuel : nat) (lx : Lexer Source),
    last_char lx = EOF ->
    getNextTokens R (S fuel) n lx =
    Done (repeat tok_eof n, match n with O => lx | S _ => atEOF lx end).
Proof.
  induction n as [|n IH]; intros fuel lx H; [reflexivity|].
  cbn [getNextTokens]. rewrite (getNextToken_at_EOF fuel lx H).
  cbn [bind snd fst]. rewrite (IH fuel (atEOF lx) H). cbn [bind fst snd].
  destruct n; reflexivity.
Qed.

(** C4: once [getNextToken] has returned the end-of-input token, every
    later call returns it again, whatever the number of calls; the line
    buffer and the source are left as they were (no line is requested),
    only the recorded location is set to the current position. *)
Theorem eof_is_repeated :
  forall (fuel : nat) (lx lx1 : Lexer Source),
    getNextToken R fuel lx = Done (tok_eof, lx1) ->
    forall n fuel' : nat,
      getNextTokens R (S fuel') n lx1 =
      Done (repeat tok_eof n, match n with O => lx1 | S _ => atEOF lx1 end)
      /\ curLineBuffer (atEOF lx1) = curLineBuffer lx1
      /\ source (atEOF lx1) = source lx1
      /\ last_char (atEOF lx1) = last_char lx1.
Proof.
  intros fuel lx lx1 H n fuel'.
  unfold getNextToken in H.
  destruct (getTok R fuel lx) as [[t lx0]| |] eqn:E; try discriminate.
  cbn [bind fst snd] in H. injection H as Ht <-. subst t.
  destruct (getTok_inv _ _ _ _ E) as (_ & _ & _ & _ & Heof).
  split; [|repeat split].
  apply getNextTokens_at_EOF. simpl. apply Heof. reflexivity.
Qed.

(** C2, as the code has it: [consume] with a token that is not the current
    one fails its assertion, which aborts the process, before the lexer
    has moved; when the assertion is compiled out (NDEBUG), the call moves
    to the next token as [getNextToken] does.  No error value is handed
    back in either case. *)
Theorem consume_mismatch :
  forall (fuel : nat) (tok : Token) (lx : Lexer Source),
    tok <> curTok lx ->
    consume R false fuel tok lx = Abort "consume Token mismatch expectation"
    /\ consume R true fuel tok lx
       = (r <- getNextToken R fuel lx ;; Done (snd r)).
Proof.
  intros fuel tok lx H. unfold consume, assert_.
  apply Z.eqb_neq in H. rewrite H. split; reflexivity.
Qed.

Lemma consume_match :
  forall (NDEBUG : bool) (fuel : nat) (lx : Lexer Source),
    consume R NDEBUG fuel (curTok lx) lx
    = (r <- getNextToken R fuel lx ;; Done (snd r)).
Proof.
  intros NDEBUG fuel lx. unfold consume, assert_.
  rewrite Z.eqb_refl, orb_true_r. reflexivity.
Qed.

End Invariants.

(** ** The scanner in terms of the characters it sees *)

Lemma app_same_length :
  forall (A : Type) (a c b d : list A),
    List.length a = List.length c -> a ++ b = c ++ d -> a = c /\ b = d.
Proof.
  induction a as [|x a IH]; intros [|y c] b d Hlen H;
    try discriminate; simpl in *.
  - split; [reflexivity | exact H].
  - injection H as -> H. injection Hlen as Hlen.
    destruct (IH c b d Hlen H) as [-> ->]. split; reflexivity.
Qed.

Section Lookahead.

Variable Source : Type.
Variable R : Source -> list Z * Source.   (* the source's [readNextLine] *)

Lemma readChar_with_identifierStr :
  forall (s : string) (lx : Lexer Source),
    readChar R (with_identifierStr s lx) = with_identifierStr s (readChar R lx).
Proof.
  intros s [t l i v c ln cl buf src]. unfold readChar, getNextChar.
  cbn [curLineBuffer with_identifierStr].
  destruct buf as [|x rest]; [reflexivity|].
  cbn. destruct rest as [|y rest']; cbn;
    [destruct (R src) as [l' s']|]; destruct (x =? newline); reflexivity.
Qed.

Lemma readChar_with_lastLocation :
  forall (loc : Location) (lx : Lexer Source),
    readChar R (with_lastLocation loc lx) = with_lastLocation loc (readChar R lx).
Proof.
  intros loc [t l i v c ln cl buf src]. unfold readChar, getNextChar.
  cbn [curLineBuffer with_lastLocation].
  destruct buf as [|x rest]; [reflexivity|].
  cbn. destruct rest as [|y rest']; cbn;
    [destruct (R src) as [l' s']|]; destruct (x =? newline); reflexivity.
Qed.

Lemma readChars_with_identifierStr :
  forall (n : nat) (s : string) (lx : Lexer Source),
    readChars R n (with_identifierStr s lx)
    = with_identifierStr s (readChars R n lx).
Proof.
  induction n as [|n IH]; intros s lx; [reflexivity|].
  cbn [readChars]. rewrite readChar_with_identifierStr. apply IH.
Qed.

Lemma readChars_with_lastLocation :
  forall (n : nat) (loc : Location) (lx : Lexer Source),
    readChars R n (with_lastLocation loc lx)
    = with_lastLocation loc (readChars R n lx).
Proof.
  induction n as [|n IH]; intros loc lx; [reflexivity|].
  cbn [readChars]. rewrite readChar_with_lastLocation. apply IH.
Qed.

Lemma lookahead_with_identifierStr :
  forall (n : nat) (s : string) (lx : Lexer Source),
    lookahead R n (with_identifierStr s lx) = lookahead R n lx.
Proof.
  induction n as [|n IH]; intros s lx; [reflexivity|].
  cbn [lookahead]. rewrite readChar_with_identifierStr, IH. reflexivity.
Qed.

Lemma lookahead_with_lastLocation :
  forall (n : nat) (loc : Location) (lx : Lexer Source),
    lookahead R n (with_lastLocation loc lx) = lookahead R n lx.
Proof.
  induction n as [|n IH]; intros loc lx; [reflexivity|].
  cbn [lookahead]. rewrite readChar_with_lastLocation, IH. reflexivity.
Qed.

Lemma lookahead_length :
  forall (n : nat) (lx : Lexer Source), List.length (lookahead R n lx) = n.
Proof.
  induction n as [|n IH]; intros lx; [reflexivity|].
  cbn [lookahead List.length]. rewrite IH. reflexivity.
Qed.

Lemma lookahead_plus :
  forall (n m : nat) (lx : Lexer Source),
    lookahead R (n + m) lx
    = lookahead R n lx ++ lookahead R m (readChars R n lx).
Proof.
  induction n as [|n IH]; intros m lx; [reflexivity|].
  cbn [Nat.add lookahead readChars app]. rewrite IH. reflexivity.
Qed.

Lemma readChars_plus :
  forall (n m : nat) (lx : Lexer Source),
    readChars R (n + m) lx = readChars R m (readChars R n lx).
Proof.
  induction n as [|n IH]; intros m lx; [reflexivity|].
  cbn [Nat.add readChars]. apply IH.
Qed.

(** A lookahead that starts with [a] is [a], then the lookahead after the
    characters of [a] were read. *)
Lemma lookahead_app :
  forall (a b : list Z) (m : nat) (lx : Lexer Source),
    lookahead R (List.length a + m) lx = a ++ b ->
    lookahead R (List.length a) lx = a
    /\ lookahead R m (readChars R (List.length a) lx) = b.
Proof.
  intros a b m lx H. rewrite lookahead_plus in H.
  apply app_same_length in H; [exact H | apply lookahead_length].
Qed.

End Lookahead.

(** ** Characters and strings *)

Ltac zcases :=
  repeat match goal with
         | |- context [?a <=? ?b] => destruct (Z.leb_spec a b)
         | |- context [?a =? ?b] => destruct (Z.eqb_spec a b)
         | H : context [?a <=? ?b] |- _ => destruct (Z.leb_spec a b)
         | H : context [?a =? ?b] |- _ => destruct (Z.eqb_spec a b)
         end;
  simpl in *; try discriminate; try reflexivity; try lia.

Lemma isalpha_not_isspace :
  forall c : Z, isalpha c = true -> isspace c = false.
Proof. intros c. unfold isalpha, isspace. zcases. Qed.

Lemma isspace_not_EOF :
  forall c : Z, isspace c = true -> c <> EOF.
Proof. intros c H ->. discriminate H. Qed.

Lemma blank_char_isspace :
  forall c : Z, blank_char c = true -> isspace c = true.
Proof.
  intros c. unfold blank_char, isspace, newline, carriage_return, chr.
  simpl. zcases.
Qed.

Lemma to_char_chr : forall a : ascii, to_char (chr a) = a.
Proof.
  intros a. unfold to_char, chr.
  pose proof (N_ascii_bounded a) as Hb.
  rewrite Z.mod_small by lia.
  rewrite N2Z.id. apply ascii_N_embedding.
Qed.

Lemma text_codes : forall s : string, text (codes s) = s.
Proof.
  induction s as [|a s IH]; [reflexivity|].
  cbn [codes text]. rewrite to_char_chr, IH. reflexivity.
Qed.

Lemma codes_length :
  forall s : string, List.length (codes s) = String.length s.
Proof.
  induction s as [|a s IH]; [reflexivity|]. cbn. rewrite IH. reflexivity.
Qed.

Lemma append_snoc :
  forall (a b : string) (c : ascii),
    ((a ++ String c EmptyString) ++ b)%string = (a ++ String c b)%string.
Proof.
  induction a as [|x a IH]; intros b c; [reflexivity|].
  cbn. rewrite IH. reflexivity.
Qed.

Lemma append_empty : forall a : string, (a ++ EmptyString)%string = a.
Proof.
  induction a as [|x a IH]; [reflexivity|]. cbn. rewrite IH. reflexivity.
Qed.

(** ** The loops, on a known lookahead *)

Section Loops.

Variable Source : Type.
Variable R : Source -> list Z * Source.   (* the source's [readNextLine] *)

Lemma skipWhitespace_spec :
  forall (ws : list Z) (lx : Lexer Source) (fuel : nat),
    forallb isspace ws = true ->
    lookahead R (List.length ws) lx = ws ->
    isspace (last_char (readChars R (List.length ws) lx)) = false ->
    (List.length ws < fuel)%nat ->
    skipWhitespace R fuel lx = Done (readChars R (List.length ws) lx).
Proof.
  induction ws as [|c ws IH]; intros lx fuel Hws Hla Hend Hfuel;
    (destruct fuel as [|fuel]; [simpl in Hfuel; lia|]).
  - cbn in *. rewrite Hend. reflexivity.
  - cbn [List.length lookahead readChars forallb] in *.
    injection Hla as Hc Hla. apply andb_true_iff in Hws as [Hsp Hws].
    cbn [skipWhitespace]. rewrite Hc, Hsp.
    apply IH; [exact Hws | exact Hla | exact Hend | lia].
Qed.

Lemma lexIdentifier_spec :
  forall (cs : list Z) (lx : Lexer Source) (fuel : nat),
    forallb identifier_char cs = true ->
    lookahead R (List.length cs) (readChar R lx) = cs ->
    identifier_char (last_char (readChars R (S (List.length cs)) lx)) = false ->
    (List.length cs < fuel)%nat ->
    exists lx',
      lexIdentifier R fuel lx = Done lx'
      /\ identifierStr lx' = (identifierStr lx ++ text cs)%string
      /\ last_char lx' = last_char (readChars R (S (List.length cs)) lx).
Proof.
  induction cs as [|c cs IH]; intros lx fuel Hcs Hla Hend Hfuel;
    (destruct fuel as [|fuel]; [simpl in Hfuel; lia|]).
  - cbn [List.length readChars] in Hend. cbn [lexIdentifier].
    unfold identifier_char in Hend. rewrite Hend.
    exists (readChar R lx). split; [reflexivity|]. split; [|reflexivity].
    destruct (readChar_frame _ R lx) as (_ & _ & Hid & _).
    rewrite Hid. cbn [text]. symmetry. apply append_empty.
  - cbn [List.length lookahead forallb] in *.
    injection Hla as Hc Hla. apply andb_true_iff in Hcs as [Hic Hcs].
    cbn [lexIdentifier]. fold (identifier_char (last_char (readChar R lx))).
    rewrite Hc, Hic.
    set (lx1 := with_identifierStr _ (readChar R lx)).
    destruct (IH lx1 fuel Hcs) as (lx' & Hrun & Hid & Hlast).
    + unfold lx1. rewrite readChar_with_identifierStr,
        lookahead_with_identifierStr. exact Hla.
    + unfold lx1. change (S (List.length cs)) with (1 + List.length cs)%nat.
      rewrite readChars_with_identifierStr. cbn [last_char with_identifierStr].
      exact Hend.
    + lia.
    + exists lx'. split; [exact Hrun|]. split.
      * rewrite Hid. unfold lx1. cbn [identifierStr with_identifierStr text].
        destruct (readChar_frame _ R lx) as (_ & _ & Hid' & _).
        rewrite Hid'. apply append_snoc.
      * rewrite Hlast. unfold lx1.
        change (S (List.length cs)) with (1 + List.length cs)%nat.
        rewrite readChars_with_identifierStr. reflexivity.
Qed.

Lemma skipComment_spec :
  forall (body : list Z) (lx : Lexer Source) (fuel : nat),
    forallb in_comment body = true ->
    lookahead R (List.length body) (readChar R lx) = body ->
    in_comment (last_char (readChars R (S (List.length body)) lx)) = false ->
    (List.length body < fuel)%nat ->
    skipComment R fuel lx = Done (readChars R (S (List.length body)) lx).
Proof.
  induction body as [|c body IH]; intros lx fuel Hb Hla Hend Hfuel;
    (destruct fuel as [|fuel]; [simpl in Hfuel; lia|]).
  - cbn [List.length readChars] in *. cbn [skipComment].
    unfold in_comment in Hend. rewrite Hend. reflexivity.
  - cbn [List.length lookahead forallb] in *.
    injection Hla as Hc Hla. apply andb_true_iff in Hb as [Hic Hb].
    cbn [skipComment]. fold (in_comment (last_char (readChar R lx))).
    rewrite Hc, Hic.
    rewrite (IH (readChar R lx) fuel Hb Hla); [reflexivity | exact Hend | lia].
Qed.

End Loops.

(** ** Tokens, on a known lookahead *)

Section Tokens.

Variable Source : Type.
Variable R : Source -> list Z * Source.   (* the source's [readNextLine] *)

(** White space, then the end of the input. *)
Lemma getTok_whitespace_EOF :
  forall (ws : list Z) (lx : Lexer Source) (fuel : nat),
    forallb isspace ws = true ->
    lookahead R (List.length ws + 1) lx = ws ++ [EOF] ->
    (List.length ws <= fuel)%nat ->
    exists lx', getTok R (S fuel) lx = Done (tok_eof, lx') /\ last_char lx' = EOF.
Proof.
  intros ws lx fuel Hws Hla Hfuel.
  apply lookahead_app in Hla as [Hla Hend].
  cbn [lookahead] in Hend. injection Hend as Hend.
  rewrite getTok_S.
  rewrite (skipWhitespace_spec _ R ws lx (S fuel) Hws Hla);
    [|rewrite Hend; reflexivity | lia].
  cbn [bind]. cbv zeta. unfold eofOrChar.
  cbn [last_char with_lastLocation]. rewrite Hend.
  eexists. split; [reflexivity | exact Hend].
Qed.

(** White space, then a comment up to the character [stop] that ends it:
    at [EOF] the end-of-input token is returned, otherwise the scan starts
    again at [stop]. *)
Lemma getTok_comment :
  forall (ws body : list Z) (stop : Z) (rest : list Z)
         (lx : Lexer Source) (fuel : nat),
    forallb isspace ws = true ->
    forallb in_comment body = true ->
    in_comment stop = false ->
    lookahead R (List.length ws + (S (List.length body) + S (List.length rest))) lx
    = ws ++ (chr "#" :: body) ++ stop :: rest ->
    (List.length ws <= fuel)%nat ->
    (List.length body <= fuel)%nat ->
    exists lx3,
      last_char lx3 = stop
      /\ lookahead R (S (List.length rest)) lx3 = stop :: rest
      /\ getTok R (S fuel) lx
         = (if stop =? EOF then Done (tok_eof, lx3) else getTok R fuel lx3).
Proof.
  intros ws body stop rest lx fuel Hws Hbody Hstop Hla Hfw Hfb.
  apply lookahead_app in Hla as [Hla Hrest].
  set (lx1 := readChars R (List.length ws) lx) in *.
  change (S (List.length body)) with (List.length (chr "#" :: body)) in Hrest.
  apply lookahead_app in Hrest as [Hhash Hrest].
  cbn [List.length lookahead] in Hhash. injection Hhash as Hhash Hbody_la.
  cbn [List.length readChars] in Hrest.
  set (loc := mkLocation (file (lastLocation lx1)) (curLineNum lx1) (curCol lx1)).
  exists (with_lastLocation loc
            (readChars R (List.length body) (readChar R lx1))).
  assert (Hlast : last_char (readChars R (List.length body) (readChar R lx1))
                  = stop).
  { cbn [lookahead] in Hrest. injection Hrest as Hrest _. exact Hrest. }
  split; [exact Hlast|]. split.
  { rewrite lookahead_with_lastLocation. exact Hrest. }
  rewrite getTok_S.
  rewrite (skipWhitespace_spec _ R ws lx (S fuel) Hws Hla);
    [|fold lx1; rewrite Hhash; reflexivity | lia].
  fold lx1. cbn [bind]. cbv zeta. fold loc.
  cbn [last_char with_lastLocation]. rewrite Hhash.
  change (isalpha (chr "#")) with false.
  change (isdigit (chr "#") || (chr "#" =? chr ".")) with false.
  change (chr "#" =? chr "#") with true. cbv iota.
  rewrite (skipComment_spec _ R body (with_lastLocation loc lx1) (S fuel) Hbody).
  - cbn [bind]. cbn [readChars].
    rewrite readChar_with_lastLocation, readChars_with_lastLocation.
    cbn [last_char with_lastLocation]. rewrite Hlast.
    unfold eofOrChar. cbn [last_char with_lastLocation]. rewrite Hlast.
    destruct (stop =? EOF); reflexivity.
  - rewrite readChar_with_lastLocation, lookahead_with_lastLocation.
    exact Hbody_la.
  - cbn [readChars].
    rewrite readChar_with_lastLocation, readChars_with_lastLocation.
    cbn [last_char with_lastLocation]. rewrite Hlast. exact Hstop.
  - lia.
Qed.

(** The first [EOF] of a comment that no newline ends. *)
Lemma first_EOF :
  forall body : list Z,
    forallb (fun c => negb (ends_comment c)) body = true ->
    exists b1 rest,
      body ++ [EOF] = b1 ++ EOF :: rest
      /\ forallb in_comment b1 = true
      /\ (List.length b1 <= List.length body)%nat.
Proof.
  induction body as [|c body IH]; intros H.
  - exists [], []. repeat split. simpl. lia.
  - cbn [forallb] in H. apply andb_true_iff in H as [Hc H].
    destruct (c =? EOF) eqn:E.
    + apply Z.eqb_eq in E. subst c. exists [], (body ++ [EOF]).
      repeat split. simpl. lia.
    + destruct (IH H) as (b1 & rest & Heq & Hb1 & Hlen).
      exists (c :: b1), rest. cbn [app forallb List.length].
      rewrite Heq, Hb1. repeat split; [|lia].
      unfold in_comment, ends_comment in *. rewrite E.
      destruct (c =? newline); [discriminate|].
      destruct (c =? carriage_return); [discriminate|]. reflexivity.
Qed.

(** When the lookahead is white space, then a comment that runs to the
    end of the input with no newline or carriage return in it, the call of
    [getNextToken] that meets the comment returns the end-of-input token
    itself. *)
Lemma comment_after_whitespace_to_end :
  forall (lx : Lexer Source) (ws body : list Z) (k : nat),
    forallb isspace ws = true ->
    forallb (fun c => negb (ends_comment c)) body = true ->
    lookahead R (List.length ws + (S (List.length body) + 1)) lx
    = ws ++ (chr "#" :: body) ++ [EOF] ->
    exists lx',
      getNextToken R (List.length ws + List.length body + 1 + k) lx
      = Done (tok_eof, lx')
      /\ getCurToken lx' = tok_eof
      /\ last_char lx' = EOF.
Proof.
  intros lx ws body k Hws Hbody Hla.
  destruct (first_EOF body Hbody) as (b1 & rest & Heq & Hb1 & Hlen).
  assert (Hlen' : (S (List.length body) + 1
                   = S (List.length b1) + S (List.length rest))%nat).
  { apply (f_equal (@List.length Z)) in Heq.
    rewrite !length_app in Heq. simpl in Heq. lia. }
  rewrite Hlen' in Hla.
  replace (ws ++ (chr "#" :: body) ++ [EOF])
    with (ws ++ (chr "#" :: b1) ++ EOF :: rest) in Hla
    by (cbn [app]; rewrite Heq; reflexivity).
  destruct (getTok_comment ws b1 EOF rest lx
              (List.length ws + List.length body + k) Hws Hb1 eq_refl Hla)
    as (lx3 & Hlast & _ & Hrun); [lia | lia |].
  replace (List.length ws + List.length body + 1 + k)%nat
    with (S (List.length ws + List.length body + k)) by lia.
  unfold getNextToken. rewrite Hrun. cbn [bind fst snd].
  change (EOF =? EOF) with true. cbv iota. cbn [bind fst snd].
  eexists. split; [reflexivity|]. split; [reflexivity | exact Hlast].
Qed.

End Tokens.

(** ** Identifiers and keywords *)

Section Identifiers.

Variable Source : Type.
Variable R : Source -> list Z * Source.   (* the source's [readNextLine] *)

(** White space, then the characters [c :: cs] of an identifier, then a
    character [t] that is not part of it. *)
Lemma getTok_identifier :
  forall (ws : list Z) (c : Z) (cs : list Z) (t : Z)
         (lx : Lexer Source) (fuel : nat),
    forallb isspace ws = true ->
    isalpha c = true ->
    forallb identifier_char cs = true ->
    identifier_char t = false ->
    lookahead R (List.length ws + (S (List.length cs) + 1)) lx
    = ws ++ (c :: cs) ++ [t] ->
    (List.length ws <= fuel)%nat ->
    (List.length cs <= fuel)%nat ->
    exists lx',
      getTok R (S fuel) lx = Done (keywordOrIdentifier (text (c :: cs)), lx')
      /\ identifierStr lx' = text (c :: cs)
      /\ last_char lx' = t.
Proof.
  intros ws c cs t lx fuel Hws Hc Hcs Ht Hla Hfw Hfc.
  apply lookahead_app in Hla as [Hla Hrest].
  set (lx1 := readChars R (List.length ws) lx) in *.
  change (S (List.length cs)) with (List.length (c :: cs)) in Hrest.
  apply lookahead_app in Hrest as [Hid Hend].
  cbn [List.length lookahead] in Hid. injection Hid as Hfirst Hid.
  cbn [List.length readChars lookahead] in Hend. injection Hend as Hend.
  rewrite getTok_S.
  rewrite (skipWhitespace_spec _ R ws lx (S fuel) Hws Hla);
    [|fold lx1; rewrite Hfirst; apply isalpha_not_isspace; exact Hc | lia].
  fold lx1. cbn [bind]. cbv zeta.
  set (loc := mkLocation (file (lastLocation lx1)) (curLineNum lx1) (curCol lx1)).
  cbn [last_char with_lastLocation]. rewrite Hfirst, Hc.
  set (lx3 := with_identifierStr _ (with_lastLocation loc lx1)).
  destruct (lexIdentifier_spec _ R cs lx3 (S fuel) Hcs)
    as (lx' & Hrun & Hstr & Hlast).
  - unfold lx3.
    rewrite readChar_with_identifierStr, lookahead_with_identifierStr,
      readChar_with_lastLocation, lookahead_with_lastLocation.
    exact Hid.
  - unfold lx3. cbn [readChars].
    rewrite readChar_with_identifierStr, readChars_with_identifierStr,
      readChar_with_lastLocation, readChars_with_lastLocation.
    cbn [last_char with_identifierStr with_lastLocation].
    rewrite Hend. exact Ht.
  - lia.
  - rewrite Hrun. cbn [bind].
    assert (Hstr' : identifierStr lx' = text (c :: cs)).
    { rewrite Hstr. unfold lx3. reflexivity. }
    exists lx'. rewrite Hstr'. split; [reflexivity|]. split; [reflexivity|].
    rewrite Hlast. unfold lx3. cbn [readChars].
    rewrite readChar_with_identifierStr, readChars_with_identifierStr,
      readChar_with_lastLocation, readChars_with_lastLocation.
    cbn [last_char with_identifierStr with_lastLocation]. exact Hend.
Qed.

(** C5: when the lookahead is white space, then a string [s] of the shape
    [[A-Za-z][A-Za-z0-9_]*], then a character that cannot continue it,
    [getNextToken] returns the keyword token when [s] is "return", "var"
    or "def", and otherwise the identifier token, with [s] itself as the
    identifier. *)
Theorem identifier_or_keyword :
  forall (lx : Lexer Source) (ws : list Z) (s : string) (t : Z) (k : nat),
    forallb isspace ws = true ->
    identifier_shaped s = true ->
    identifier_char t = false ->
    lookahead R (List.length ws + (String.length s + 1)) lx
    = ws ++ codes s ++ [t] ->
    exists (tok : Token) (lx' : Lexer Source),
      getNextToken R (List.length ws + String.length s + 1 + k) lx
      = Done (tok, lx')
      /\ getCurToken lx' = tok
      /\ identifierStr lx' = s
      /\ (s = "return"%string -> tok = tok_return)
      /\ (s = "var"%string -> tok = tok_var)
      /\ (s = "def"%string -> tok = tok_def)
      /\ (s <> "return"%string -> s <> "var"%string -> s <> "def"%string ->
          tok = tok_identifier /\ getId false lx' = Done s).
Proof.
  intros lx ws s t k Hws Hs Ht Hla.
  unfold identifier_shaped in Hs.
  pose proof (codes_length s) as Hlen. pose proof (text_codes s) as Htext.
  destruct (codes s) as [|c cs]; [discriminate|].
  apply andb_true_iff in Hs as [Hc Hcs]. cbn [List.length] in Hlen.
  rewrite <- Hlen in *.
  destruct (getTok_identifier ws c cs t lx
              (List.length ws + List.length cs + 1 + k) Hws Hc Hcs Ht Hla)
    as (lx' & Hrun & Hstr & Hlast); [lia | lia |].
  replace (List.length ws + S (List.length cs) + 1 + k)%nat
    with (S (List.length ws + List.length cs + 1 + k)) by lia.
  unfold getNextToken. rewrite Hrun. cbn [bind fst snd].
  rewrite Htext in *.
  exists (keywordOrIdentifier s), (with_curTok (keywordOrIdentifier s) lx').
  split; [reflexivity|]. split; [reflexivity|]. split; [exact Hstr|].
  split; [intros ->; reflexivity|].
  split; [intros ->; reflexivity|].
  split; [intros ->; reflexivity|].
  intros Hr Hv Hd. unfold keywordOrIdentifier.
  apply String.eqb_neq in Hr, Hv, Hd. rewrite Hr, Hd, Hv.
  split; [reflexivity|].
  unfold getId, assert_. cbn [curTok with_curTok identifierStr].
  rewrite Z.eqb_refl. cbn. rewrite Hstr. reflexivity.
Qed.

End Identifiers.

(** ** White space and comments only *)

Lemma blank_split :
  forall cs : list Z,
    blank false cs = true ->
    exists ws tail,
      cs = ws ++ tail
      /\ forallb blank_char ws = true
      /\ (tail = [] \/ exists r, tail = chr "#" :: r /\ blank true r = true).
Proof.
  induction cs as [|c cs IH]; intros H.
  - exists [], []. repeat split. left. reflexivity.
  - cbn [blank] in H. destruct (c =? chr "#") eqn:E.
    + apply Z.eqb_eq in E. subst c. exists [], (chr "#" :: cs).
      repeat split. right. exists cs. split; [reflexivity | exact H].
    + apply andb_true_iff in H as [Hc H].
      destruct (IH H) as (ws & tail & Heq & Hws & Htail).
      exists (c :: ws), tail. cbn [app forallb]. rewrite Hc, Hws, Heq.
      repeat split. exact Htail.
Qed.

Lemma comment_split :
  forall r : list Z,
    blank true r = true ->
    (exists b1 rest,
        r ++ [EOF] = b1 ++ EOF :: rest /\ forallb in_comment b1 = true)
    \/ (exists b1 stop r',
           r = b1 ++ stop :: r'
           /\ forallb in_comment b1 = true
           /\ ends_comment stop = true
           /\ blank false r' = true).
Proof.
  induction r as [|c r IH]; intros H.
  - left. exists [], []. split; reflexivity.
  - cbn [blank] in H. destruct (c =? EOF) eqn:Eeof.
    + apply Z.eqb_eq in Eeof. subst c. left. exists [], (r ++ [EOF]).
      split; reflexivity.
    + destruct (ends_comment c) eqn:Eend.
      * right. exists [], c, r. repeat split; assumption.
      * assert (Hin : in_comment c = true).
        { unfold in_comment, ends_comment in *. rewrite Eeof.
          destruct (c =? newline); [discriminate|].
          destruct (c =? carriage_return); [discriminate|]. reflexivity. }
        destruct (IH H) as [(b1 & rest & Heq & Hb1)
                           |(b1 & stop & r' & Heq & Hb1 & Hstop & Hr')].
        -- left. exists (c :: b1), rest. cbn [app forallb].
           rewrite Heq, Hin, Hb1. split; reflexivity.
        -- right. exists (c :: b1), stop, r'. cbn [app forallb].
           rewrite Heq, Hin, Hb1. repeat split; assumption.
Qed.

Lemma forallb_blank_isspace :
  forall ws : list Z, forallb blank_char ws = true -> forallb isspace ws = true.
Proof.
  induction ws as [|c ws IH]; intros H; [reflexivity|].
  cbn [forallb] in *. apply andb_true_iff in H as [Hc H].
  rewrite (blank_char_isspace c Hc), (IH H). reflexivity.
Qed.

Lemma ends_comment_facts :
  forall c : Z,
    ends_comment c = true ->
    in_comment c = false /\ (c =? EOF) = false
    /\ (c =? chr "#") = false /\ blank_char c = true.
Proof.
  intros c. unfold ends_comment, in_comment, blank_char, EOF, newline,
    carriage_return, chr. simpl. intros H. repeat split; zcases.
Qed.

Section Blank.

Variable Source : Type.
Variable R : Source -> list Z * Source.   (* the source's [readNextLine] *)

(** When all that is left is white space and comments, [getTok] returns
    the end-of-input token. *)
Lemma getTok_blank :
  forall (n : nat) (cs : list Z) (lx : Lexer Source) (fuel : nat),
    (List.length cs <= n)%nat ->
    blank false cs = true ->
    lookahead R (List.length cs + 1) lx = cs ++ [EOF] ->
    (List.length cs < fuel)%nat ->
    exists lx', getTok R fuel lx = Done (tok_eof, lx') /\ last_char lx' = EOF.
Proof.
  induction n as [|n IH]; intros cs lx fuel Hn Hblank Hla Hfuel;
    (destruct fuel as [|fuel]; [lia|]);
    destruct (blank_split cs Hblank) as (ws & tail & Heq & Hws & Htail);
    apply forallb_blank_isspace in Hws;
    (destruct Htail as [-> | (r & -> & Hr)];
     [rewrite app_nil_r in Heq; subst cs;
      apply (getTok_whitespace_EOF _ R ws lx fuel Hws Hla); lia|]).
  - subst cs. rewrite length_app in Hn. simpl in Hn. lia.
  - subst cs. rewrite length_app in Hn, Hfuel, Hla.
    cbn [List.length] in Hn, Hfuel, Hla.
    destruct (comment_split r Hr)
      as [(b1 & rest & Heq & Hb1)|(b1 & stop & r' & Heq & Hb1 & Hstop & Hr')].
    + assert (Hlen : (List.length r + 1
                      = List.length b1 + S (List.length rest))%nat).
      { apply (f_equal (@List.length Z)) in Heq.
        rewrite !length_app in Heq. simpl in Heq. lia. }
      replace (List.length ws + S (List.length r) + 1)%nat
        with (List.length ws + (S (List.length b1) + S (List.length rest)))%nat
        in Hla by lia.
      replace ((ws ++ chr "#" :: r) ++ [EOF])
        with (ws ++ (chr "#" :: b1) ++ EOF :: rest) in Hla
        by (rewrite <- app_assoc; cbn [app]; rewrite Heq; reflexivity).
      destruct (getTok_comment _ R ws b1 EOF rest lx fuel Hws Hb1 eq_refl Hla)
        as (lx3 & Hlast & _ & Hrun); [lia | lia |].
      exists lx3. split; [exact Hrun | exact Hlast].
    + subst r. rewrite length_app in Hn, Hfuel, Hla.
      cbn [List.length] in Hn, Hfuel, Hla.
      destruct (ends_comment_facts stop Hstop) as (Hin & Heof & Hhash & Hbl).
      replace (List.length ws + S (List.length b1 + S (List.length r')) + 1)%nat
        with (List.length ws
              + (S (List.length b1) + S (List.length (r' ++ [EOF]))))%nat
        in Hla by (rewrite length_app; simpl; lia).
      replace ((ws ++ chr "#" :: b1 ++ stop :: r') ++ [EOF])
        with (ws ++ (chr "#" :: b1) ++ stop :: (r' ++ [EOF])) in Hla
        by (rewrite <- !app_assoc; cbn [app]; rewrite <- app_assoc;
            reflexivity).
      destruct (getTok_comment _ R ws b1 stop (r' ++ [EOF]) lx fuel
                  Hws Hb1 Hin Hla)
        as (lx3 & Hlast & Hla3 & Hrun); [lia | lia |].
      rewrite Hrun, Heof.
      apply (IH (stop :: r') lx3 fuel).
      * cbn [List.length]. lia.
      * cbn [blank]. rewrite Hhash, Hbl. exact Hr'.
      * rewrite length_app in Hla3. cbn [List.length] in *.
        replace (S (List.length r') + 1)%nat
          with (S (List.length r' + 1)) by lia.
        exact Hla3.
      * cbn [List.length]. lia.
Qed.

End Blank.

(** ** The lexer over a buffer: the characters it delivers *)

Lemma readNextLine_split :
  forall mem : list Z,
    fst (LexerBuffer_readNextLine mem) ++ snd (LexerBuffer_readNextLine mem)
    = mem.
Proof.
  induction mem as [|c mem IH]; [reflexivity|].
  cbn [LexerBuffer_readNextLine].
  destruct (c =? 0); [reflexivity|].
  destruct (c =? newline); [reflexivity|].
  destruct (LexerBuffer_readNextLine mem) as [l r]. cbn in *.
  rewrite IH. reflexivity.
Qed.

Lemma readNextLine_live :
  forall mem : list Z,
    fst (LexerBuffer_readNextLine mem)
    ++ live (snd (LexerBuffer_readNextLine mem))
    = live mem.
Proof.
  induction mem as [|c mem IH]; [reflexivity|].
  cbn [LexerBuffer_readNextLine live].
  destruct (c =? 0) eqn:E0; [cbn; rewrite E0; reflexivity|].
  destruct (c =? newline); [reflexivity|].
  destruct (LexerBuffer_readNextLine mem) as [l r]. cbn in *.
  rewrite IH. reflexivity.
Qed.

Lemma readNextLine_empty :
  forall mem : list Z,
    fst (LexerBuffer_readNextLine mem) = [] ->
    live (snd (LexerBuffer_readNextLine mem)) = [].
Proof.
  intros mem H. pose proof (readNextLine_live mem) as Hl.
  rewrite H in Hl. cbn [app] in Hl. rewrite Hl.
  destruct mem as [|c mem]; [reflexivity|].
  cbn [LexerBuffer_readNextLine live] in *.
  destruct (c =? 0); [reflexivity|].
  destruct (c =? newline); [discriminate|].
  destruct (LexerBuffer_readNextLine mem); discriminate.
Qed.

(** [readChar] hands out the pending characters one by one, then [EOF]. *)
Lemma readChar_pending :
  forall lx : LexerBuffer,
    consistent lx ->
    consistent (readChar LexerBuffer_readNextLine lx)
    /\ last_char (readChar LexerBuffer_readNextLine lx) = hd EOF (pending lx)
    /\ pending (readChar LexerBuffer_readNextLine lx) = tl (pending lx).
Proof.
  intros [t l i v c ln cl buf src] Hc.
  unfold consistent, pending, readChar, getNextChar in *.
  cbn [curLineBuffer source] in *.
  destruct buf as [|x rest].
  - rewrite (Hc eq_refl). cbn. rewrite (Hc eq_refl). auto.
  - cbn [curLineBuffer source with_curCol].
    destruct rest as [|y rest'].
    + pose proof (readNextLine_live src) as Hl.
      pose proof (readNextLine_empty src) as He.
      destruct (LexerBuffer_readNextLine src) as [l' s']. cbn [fst snd] in *.
      destruct (x =? newline); cbn; auto.
    + destruct (x =? newline); cbn; repeat split; discriminate.
Qed.

Lemma lookahead_pending :
  forall (p : list Z) (lx : LexerBuffer),
    pending lx = p ->
    consistent lx ->
    lookahead LexerBuffer_readNextLine (S (List.length p) + 1) lx
    = (last_char lx :: p) ++ [EOF].
Proof.
  induction p as [|c p IH]; intros lx Hp Hc;
    destruct (readChar_pending lx Hc) as (Hc' & Hlast & Hpend);
    rewrite Hp in Hlast, Hpend; cbn [hd tl] in Hlast, Hpend.
  - cbn [List.length Nat.add lookahead app]. rewrite Hlast. reflexivity.
  - cbn [List.length Nat.add lookahead app].
    pose proof (IH _ Hpend Hc') as H.
    cbn [Nat.add lookahead app] in H. rewrite H, Hlast. reflexivity.
Qed.

Lemma lexerOf_consistent : forall s : list Z, consistent (lexerOf s).
Proof. intros s H. discriminate H. Qed.

Lemma live_terminated_length :
  forall s : list Z, (List.length (live (s ++ [0%Z])) <= List.length s)%nat.
Proof.
  induction s as [|c s IH]; [simpl; lia|].
  cbn [app live List.length]. destruct (c =? 0); cbn [List.length]; lia.
Qed.

Lemma blank_live :
  forall (s : list Z) (b : bool),
    blank b s = true -> blank b (live (s ++ [0])) = true.
Proof.
  induction s as [|c s IH]; intros b H; [reflexivity|].
  cbn [app live]. destruct (c =? 0); [reflexivity|].
  cbn [blank] in *. destruct b.
  - apply IH. exact H.
  - destruct (c =? chr "#"); [apply IH; exact H|].
    apply andb_true_iff in H as [Hc H]. rewrite Hc. apply IH. exact H.
Qed.

(** C6: over an input made of white space (space, tab, newline, carriage
    return) and line comments only, every call of [getNextToken] returns
    the end-of-input token: any number [n] of calls yields [n] times that
    token. *)
Theorem blank_input_only_eof :
  forall (s : list Z) (n k : nat),
    blank false s = true ->
    exists lx',
      getNextTokens LexerBuffer_readNextLine (List.length s + 3 + k) n (lexerOf s)
      = Done (repeat tok_eof n, lx').
Proof.
  intros s n k Hs. destruct n as [|n]; [eexists; reflexivity|].
  set (p := live (s ++ [0])).
  pose proof (live_terminated_length s) as Hlen. fold p in Hlen.
  assert (Hblank : blank false (chr " " :: newline :: p) = true).
  { cbn. apply blank_live. exact Hs. }
  assert (Hla : lookahead LexerBuffer_readNextLine
                  (List.length (chr " " :: newline :: p) + 1) (lexerOf s)
                = (chr " " :: newline :: p) ++ [EOF]).
  { apply (lookahead_pending (newline :: p) (lexerOf s));
      [reflexivity | apply lexerOf_consistent]. }
  destruct (getTok_blank _ LexerBuffer_readNextLine
              (List.length (chr " " :: newline :: p))
              (chr " " :: newline :: p) (lexerOf s)
              (List.length s + 3 + k) (le_n _) Hblank Hla)
    as (lx1 & Hrun & Hlast); [cbn [List.length]; lia|].
  cbn [getNextTokens]. unfold getNextToken at 1. rewrite Hrun.
  cbn [bind fst snd].
  replace (List.length s + 3 + k)%nat with (S (List.length s + 2 + k)) by lia.
  rewrite getNextTokens_at_EOF by exact Hlast.
  cbn [bind fst snd]. eexists. reflexivity.
Qed.

(** ** Termination over a buffer

    Every step of a loop of [getTok] either takes a character out of the
    buffer or turns the lookahead into [EOF]: [budget] decreases. *)

Section Termination.

Lemma readChar_budget :
  forall lx : LexerBuffer,
    (budget (readChar LexerBuffer_readNextLine lx) <= budget lx)%nat
    /\ (last_char lx <> EOF -> (budget (readChar LexerBuffer_readNextLine lx) < budget lx)%nat).
Proof.
  intros [t l i v c ln cl buf src]. unfold budget, readChar, getNextChar.
  cbn [curLineBuffer source last_char].
  destruct buf as [|x rest].
  - cbn. destruct (c =? EOF) eqn:E; split; try lia;
      try (intros H; apply Z.eqb_eq in E; contradiction).
  - cbn [with_curCol curLineBuffer source].
    destruct rest as [|y rest'].
    + pose proof (readNextLine_split src) as Hs.
      destruct (LexerBuffer_readNextLine src) as [l' s']. cbn [fst snd] in Hs.
      apply (f_equal (@List.length Z)) in Hs. rewrite length_app in Hs.
      destruct (x =? newline); cbn;
        destruct (x =? EOF), (c =? EOF) eqn:E; split; try lia;
        try (intros H; apply Z.eqb_eq in E; contradiction).
    + destruct (x =? newline); cbn;
        destruct (x =? EOF), (c =? EOF) eqn:E; split; try lia;
        try (intros H; apply Z.eqb_eq in E; contradiction).
Qed.

Lemma budget_positive :
  forall lx : LexerBuffer, last_char lx <> EOF -> (1 <= budget lx)%nat.
Proof.
  intros lx H. unfold budget. apply Z.eqb_neq in H. rewrite H. lia.
Qed.

Lemma skipWhitespace_terminates :
  forall (fuel : nat) (lx : LexerBuffer),
    (budget lx < fuel)%nat ->
    exists lx',
      skipWhitespace LexerBuffer_readNextLine fuel lx = Done lx' /\ (budget lx' <= budget lx)%nat.
Proof.
  induction fuel as [|fuel IH]; intros lx H; [lia|].
  cbn [skipWhitespace]. destruct (isspace (last_char lx)) eqn:E.
  - destruct (readChar_budget lx) as [_ Hlt].
    specialize (Hlt (isspace_not_EOF _ E)).
    destruct (IH (readChar LexerBuffer_readNextLine lx)) as (lx' & Hrun & Hb); [lia|].
    exists lx'. split; [exact Hrun | lia].
  - exists lx. split; [reflexivity | lia].
Qed.

Lemma lexIdentifier_terminates :
  forall (fuel : nat) (lx : LexerBuffer),
    last_char lx <> EOF ->
    (budget lx <= fuel)%nat ->
    exists lx',
      lexIdentifier LexerBuffer_readNextLine fuel lx = Done lx' /\ (budget lx' <= budget lx)%nat.
Proof.
  induction fuel as [|fuel IH]; intros lx Hne H.
  - pose proof (budget_positive lx Hne). lia.
  - cbn [lexIdentifier].
    destruct (readChar_budget lx) as [_ Hlt]. specialize (Hlt Hne).
    destruct (isalnum (last_char (readChar LexerBuffer_readNextLine lx))
              || (last_char (readChar LexerBuffer_readNextLine lx) =? chr "_")) eqn:E.
    + set (lx1 := with_identifierStr _ (readChar LexerBuffer_readNextLine lx)).
      assert (Hb1 : budget lx1 = budget (readChar LexerBuffer_readNextLine lx)) by reflexivity.
      destruct (IH lx1) as (lx' & Hrun & Hb).
      * unfold lx1. cbn [last_char with_identifierStr]. intros Heof.
        rewrite Heof in E. discriminate E.
      * lia.
      * exists lx'. split; [exact Hrun | lia].
    + exists (readChar LexerBuffer_readNextLine lx). split; [reflexivity | lia].
Qed.

Lemma lexNumber_terminates :
  forall (fuel : nat) (numStr : string) (lx : LexerBuffer),
    last_char lx <> EOF ->
    (budget lx <= fuel)%nat ->
    exists r,
      lexNumber LexerBuffer_readNextLine fuel numStr lx = Done r /\ (budget (snd r) <= budget lx)%nat.
Proof.
  induction fuel as [|fuel IH]; intros numStr lx Hne H.
  - pose proof (budget_positive lx Hne). lia.
  - cbn [lexNumber].
    destruct (readChar_budget lx) as [_ Hlt]. specialize (Hlt Hne).
    destruct (isdigit (last_char (readChar LexerBuffer_readNextLine lx))
              || (last_char (readChar LexerBuffer_readNextLine lx) =? chr ".")) eqn:E.
    + destruct (IH (numStr ++ to_string (last_char lx))%string
                  (readChar LexerBuffer_readNextLine lx)) as (r & Hrun & Hb).
      * intros Heof. rewrite Heof in E. discriminate E.
      * lia.
      * exists r. split; [exact Hrun | lia].
    + eexists. split; [reflexivity | cbn [snd]; lia].
Qed.

Lemma skipComment_terminates :
  forall (fuel : nat) (lx : LexerBuffer),
    last_char lx <> EOF ->
    (budget lx <= fuel)%nat ->
    exists lx',
      skipComment LexerBuffer_readNextLine fuel lx = Done lx' /\ (budget lx' < budget lx)%nat.
Proof.
  induction fuel as [|fuel IH]; intros lx Hne H.
  - pose proof (budget_positive lx Hne). lia.
  - cbn [skipComment].
    destruct (readChar_budget lx) as [_ Hlt]. specialize (Hlt Hne).
    destruct (negb (last_char (readChar LexerBuffer_readNextLine lx) =? EOF)
              && negb (last_char (readChar LexerBuffer_readNextLine lx) =? newline)
              && negb (last_char (readChar LexerBuffer_readNextLine lx) =? carriage_return)) eqn:E.
    + destruct (IH (readChar LexerBuffer_readNextLine lx)) as (lx' & Hrun & Hb).
      * intros Heof. rewrite Heof in E. discriminate E.
      * lia.
      * exists lx'. split; [exact Hrun | lia].
    + exists (readChar LexerBuffer_readNextLine lx). split; [reflexivity | lia].
Qed.

(** Over a buffer, [getTok] returns: a fuel above [budget] is enough. *)
Lemma getTok_terminates :
  forall (fuel : nat) (lx : LexerBuffer),
    (budget lx < fuel)%nat ->
    exists t lx',
      getTok LexerBuffer_readNextLine fuel lx = Done (t, lx') /\ (budget lx' <= budget lx)%nat.
Proof.
  induction fuel as [|fuel IH]; intros lx H; [lia|].
  rewrite getTok_S.
  destruct (skipWhitespace_terminates (S fuel) lx H) as (lx1 & Hws & Hb1).
  rewrite Hws. cbn [bind]. cbv zeta.
  set (lx2 := with_lastLocation _ lx1).
  assert (Hb2 : budget lx2 = budget lx1) by reflexivity.
  assert (Hc2 : last_char lx2 = last_char lx1) by reflexivity.
  assert (Htail : exists t lx',
             eofOrChar LexerBuffer_readNextLine lx2 = Done (t, lx')
             /\ (budget lx' <= budget lx2)%nat).
  { unfold eofOrChar. destruct (last_char lx2 =? EOF).
    - exists tok_eof, lx2. split; [reflexivity | lia].
    - destruct (readChar_budget lx2) as [Hle _].
      eexists _, _. split; [reflexivity | exact Hle]. }
  destruct (isalpha (last_char lx2)) eqn:Ealpha.
  - set (lx3 := with_identifierStr _ lx2).
    assert (Hb3 : budget lx3 = budget lx2) by reflexivity.
    destruct (lexIdentifier_terminates (S fuel) lx3) as (lx' & Hrun & Hb).
    + unfold lx3. cbn [last_char with_identifierStr]. intros Heof.
      rewrite Heof in Ealpha. discriminate Ealpha.
    + lia.
    + rewrite Hrun. cbn [bind]. eexists _, _. split; [reflexivity | lia].
  - destruct (isdigit (last_char lx2) || (last_char lx2 =? chr ".")) eqn:Enum.
    + destruct (lexNumber_terminates (S fuel) "" lx2) as (r & Hrun & Hb).
      * intros Heof. rewrite Heof in Enum. discriminate Enum.
      * lia.
      * rewrite Hrun. cbn [bind]. eexists _, _.
        split; [reflexivity | ]. change (budget (snd r) <= budget lx)%nat. lia.
    + destruct (last_char lx2 =? chr "#") eqn:Ehash.
      * destruct (skipComment_terminates (S fuel) lx2) as (lx3 & Hrun & Hb).
        -- intros Heof. rewrite Heof in Ehash. discriminate Ehash.
        -- lia.
        -- rewrite Hrun. cbn [bind].
           destruct (negb (last_char lx3 =? EOF)) eqn:Eeof.
           ++ destruct (IH lx3) as (t & lx' & Hrec & Hb'); [lia|].
              exists t, lx'. split; [exact Hrec | lia].
           ++ unfold eofOrChar. apply negb_false_iff in Eeof. rewrite Eeof.
              exists tok_eof, lx3. split; [reflexivity | lia].
      * destruct Htail as (t & lx' & Hrun & Hb).
        exists t, lx'. split; [exact Hrun | lia].
Qed.

Lemma getNextToken_terminates :
  forall (fuel : nat) (lx : LexerBuffer),
    (budget lx < fuel)%nat ->
    exists t lx',
      getNextToken LexerBuffer_readNextLine fuel lx = Done (t, lx') /\ (budget lx' <= budget lx)%nat.
Proof.
  intros fuel lx H. unfold getNextToken.
  destruct (getTok_terminates fuel lx H) as (t & lx' & Hrun & Hb).
  rewrite Hrun. cbn [bind fst snd].
  exists t, (with_curTok t lx'). split; [reflexivity | exact Hb].
Qed.

Lemma getNextTokens_terminates :
  forall (n fuel : nat) (lx : LexerBuffer),
    (budget lx < fuel)%nat ->
    exists toks lx',
      getNextTokens LexerBuffer_readNextLine fuel n lx = Done (toks, lx')
      /\ List.length toks = n.
Proof.
  induction n as [|n IH]; intros fuel lx H.
  - exists [], lx. split; reflexivity.
  - cbn [getNextTokens].
    destruct (getNextToken_terminates fuel lx H) as (t & lx1 & Hrun & Hb).
    rewrite Hrun. cbn [bind fst snd].
    destruct (IH fuel lx1) as (toks & lx' & Hrest & Hlen); [lia|].
    rewrite Hrest. cbn [bind fst snd].
    exists (t :: toks), lx'. split; [reflexivity | cbn; lia].
Qed.

End Termination.

(** ** The line of a location *)

Section Lines.

Variable Source : Type.
Variable R : Source -> list Z * Source.   (* the source's [readNextLine] *)

(** The first character a new lexer reads is the newline of its initial
    line buffer. *)
Lemma readChar_new :
  forall (filename : string) (src : Source),
    curLineNum (readChar R (Lexer_new filename src)) = 1.
Proof.
  intros filename src. unfold readChar, getNextChar, Lexer_new.
  cbn [curLineBuffer source with_curCol].
  destruct (R src) as [l s]. reflexivity.
Qed.

Lemma getNextToken_line :
  forall (fuel : nat) (lx : Lexer Source) (t : Token) (lx' : Lexer Source),
    1 <= curLineNum lx ->
    getNextToken R fuel lx = Done (t, lx') ->
    1 <= curLineNum lx' /\ 1 <= line (lastLocation lx').
Proof.
  intros fuel lx t lx' Hl H. unfold getNextToken in H.
  destruct (getTok R fuel lx) as [[t0 lx0]| |] eqn:E; try discriminate.
  cbn [bind fst snd] in H. injection H as _ <-.
  destruct (getTok_inv _ R _ _ _ _ E) as (lx1 & Hws & Hloc & Hline & _).
  destruct (skipWhitespace_inv _ R _ _ _ Hws) as (Hl1 & _).
  cbn [curLineNum lastLocation with_curTok]. lia.
Qed.

Lemma getNextToken_first_line :
  forall (fuel : nat) (filename : string) (src : Source)
         (t : Token) (lx' : Lexer Source),
    getNextToken R fuel (Lexer_new filename src) = Done (t, lx') ->
    1 <= curLineNum lx' /\ 1 <= line (lastLocation lx').
Proof.
  intros fuel filename src t lx' H. unfold getNextToken in H.
  destruct (getTok R fuel (Lexer_new filename src)) as [[t0 lx0]| |] eqn:E;
    try discriminate.
  cbn [bind fst snd] in H. injection H as _ <-.
  destruct (getTok_inv _ R _ _ _ _ E) as (lx1 & Hws & Hloc & Hline & _).
  destruct fuel as [|fuel]; [discriminate|].
  cbn [skipWhitespace] in Hws.
  change (isspace (last_char (Lexer_new filename src))) with true in Hws.
  cbv iota in Hws.
  destruct (skipWhitespace_inv _ R _ _ _ Hws) as (Hl1 & _).
  rewrite readChar_new in Hl1.
  cbn [curLineNum lastLocation with_curTok]. lia.
Qed.

Lemma getNextTokens_line :
  forall (n fuel : nat) (lx : Lexer Source)
         (toks : list Token) (lx' : Lexer Source),
    1 <= curLineNum lx ->
    1 <= line (lastLocation lx) ->
    getNextTokens R fuel n lx = Done (toks, lx') ->
    1 <= line (lastLocation lx').
Proof.
  induction n as [|n IH]; intros fuel lx toks lx' Hl Hloc H.
  - injection H as _ <-. exact Hloc.
  - cbn [getNextTokens] in H.
    destruct (getNextToken R fuel lx) as [[t lx1]| |] eqn:E; try discriminate.
    cbn [bind fst snd] in H.
    destruct (getNextTokens R fuel n lx1) as [[ts lx2]| |] eqn:E2;
      try discriminate.
    cbn [bind fst snd] in H. injection H as _ <-.
    destruct (getNextToken_line _ _ _ _ Hl E) as [Hl1 Hloc1].
    exact (IH _ _ _ _ Hl1 Hloc1 E2).
Qed.

(** Whatever the source, the location recorded by any call of
    [getNextToken] on a new lexer has a line number of 1 or more. *)
Lemma new_lexer_line :
  forall (n fuel : nat) (filename : string) (src : Source)
         (toks : list Token) (lx' : Lexer Source),
    getNextTokens R fuel (S n) (Lexer_new filename src) = Done (toks, lx') ->
    1 <= line (lastLocation lx').
Proof.
  intros n fuel filename src toks lx' H.
  cbn [getNextTokens] in H.
  destruct (getNextToken R fuel (Lexer_new filename src))
    as [[t lx1]| |] eqn:E; try discriminate.
  cbn [bind fst snd] in H.
  destruct (getNextTokens R fuel n lx1) as [[ts lx2]| |] eqn:E2;
    try discriminate.
  cbn [bind fst snd] in H. injection H as _ <-.
  destruct (getNextToken_first_line _ _ _ _ _ E) as [Hl1 Hloc1].
  exact (getNextTokens_line _ _ _ _ _ Hl1 Hloc1 E2).
Qed.

End Lines.

(** C10: over any buffer, each call of [getNextToken] returns, and the
    location it records has a line number of 1 or more (whatever the token,
    so for every token other than the end-of-input too): the first call
    reads the newline of the initial line buffer before it records a
    location, and the line counter never decreases. *)
Theorem location_line_positive :
  forall (mem : list Z) (filename : string) (n k : nat),
    exists (toks : list Token) (lx' : LexerBuffer),
      getNextTokens LexerBuffer_readNextLine (List.length mem + 3 + k) (S n)
        (LexerBuffer_new mem filename)
      = Done (toks, lx')
      /\ List.length toks = S n
      /\ 1 <= line (getLastLocation lx').
Proof.
  intros mem filename n k.
  destruct (getNextTokens_terminates (S n) (List.length mem + 3 + k)
              (LexerBuffer_new mem filename))
    as (toks & lx' & Hrun & Hlen).
  - unfold budget. cbn. lia.
  - exists toks, lx'. split; [exact Hrun|]. split; [exact Hlen|].
    exact (new_lexer_line _ _ _ _ _ _ _ _ Hrun).
Qed.

(** ** Numbers *)

Lemma string_app_assoc :
  forall a b c : string, ((a ++ b) ++ c)%string = (a ++ (b ++ c))%string.
Proof.
  induction a as [|x a IH]; intros b c; [reflexivity|].
  cbn. rewrite IH. reflexivity.
Qed.

Lemma number_char_not_other :
  forall c : Z,
    number_char c = true -> isspace c = false /\ isalpha c = false.
Proof.
  intros c. unfold number_char, isdigit, isspace, isalpha, chr. simpl.
  intros H. split; zcases.
Qed.

Section Numbers.

Variable Source : Type.
Variable R : Source -> list Z * Source.   (* the source's [readNextLine] *)

Lemma lexNumber_spec :
  forall (cs : list Z) (lx : Lexer Source) (numStr : string) (fuel : nat),
    forallb number_char cs = true ->
    lookahead R (List.length cs) (readChar R lx) = cs ->
    number_char (last_char (readChars R (S (List.length cs)) lx)) = false ->
    (List.length cs < fuel)%nat ->
    lexNumber R fuel numStr lx
    = Done ((numStr ++ code_digits (last_char lx :: cs))%string,
            readChars R (S (List.length cs)) lx).
Proof.
  induction cs as [|c cs IH]; intros lx numStr fuel Hcs Hla Hend Hfuel;
    (destruct fuel as [|fuel]; [simpl in Hfuel; lia|]).
  - cbn [List.length readChars] in *. cbn [lexNumber].
    unfold number_char in Hend. rewrite Hend.
    cbn [code_digits]. rewrite append_empty. reflexivity.
  - cbn [List.length lookahead forallb] in *.
    injection Hla as Hc Hla. apply andb_true_iff in Hcs as [Hic Hcs].
    cbn [lexNumber]. fold (number_char (last_char (readChar R lx))).
    rewrite Hc, Hic.
    rewrite (IH (readChar R lx) _ fuel Hcs Hla); [|exact Hend | lia].
    rewrite Hc. cbn [code_digits readChars].
    rewrite string_app_assoc. reflexivity.
Qed.

(** White space, then the characters [c :: cs] of a number, then a
    character [t] that is not part of it: the number token, and as its
    value what [strtod] makes of the rendered character codes. *)
Lemma getTok_number :
  forall (ws : list Z) (c : Z) (cs : list Z) (t : Z)
         (lx : Lexer Source) (fuel : nat),
    forallb isspace ws = true ->
    number_char c = true ->
    forallb number_char cs = true ->
    number_char t = false ->
    lookahead R (List.length ws + (S (List.length cs) + 1)) lx
    = ws ++ (c :: cs) ++ [t] ->
    (List.length ws <= fuel)%nat ->
    (List.length cs <= fuel)%nat ->
    exists lx',
      getTok R (S fuel) lx = Done (tok_number, lx')
      /\ numVal lx' = strtod (code_digits (c :: cs))
      /\ last_char lx' = t.
Proof.
  intros ws c cs t lx fuel Hws Hc Hcs Ht Hla Hfw Hfc.
  destruct (number_char_not_other c Hc) as [Hsp Hal].
  apply lookahead_app in Hla as [Hla Hrest].
  set (lx1 := readChars R (List.length ws) lx) in *.
  change (S (List.length cs)) with (List.length (c :: cs)) in Hrest.
  apply lookahead_app in Hrest as [Hid Hend].
  cbn [List.length lookahead] in Hid. injection Hid as Hfirst Hid.
  cbn [List.length readChars lookahead] in Hend. injection Hend as Hend.
  rewrite getTok_S.
  rewrite (skipWhitespace_spec _ R ws lx (S fuel) Hws Hla);
    [|fold lx1; rewrite Hfirst; exact Hsp | lia].
  fold lx1. cbn [bind]. cbv zeta.
  set (loc := mkLocation (file (lastLocation lx1)) (curLineNum lx1) (curCol lx1)).
  cbn [last_char with_lastLocation]. rewrite Hfirst, Hal.
  fold (number_char c). rewrite Hc.
  rewrite (lexNumber_spec cs (with_lastLocation loc lx1) "" (S fuel) Hcs).
  - cbn [bind fst snd]. eexists. split; [reflexivity|].
    cbn [numVal with_numVal last_char with_lastLocation]. rewrite Hfirst.
    split; [reflexivity|].
    cbn [readChars].
    rewrite readChar_with_lastLocation, readChars_with_lastLocation.
    exact Hend.
  - rewrite readChar_with_lastLocation, lookahead_with_lastLocation.
    exact Hid.
  - cbn [readChars].
    rewrite readChar_with_lastLocation, readChars_with_lastLocation.
    cbn [last_char with_lastLocation]. rewrite Hend. exact Ht.
  - lia.
Qed.

End Numbers.

(** ** Concrete inputs *)

(** C1, at the input "3.14": the number token is returned, but the text
    handed to [strtod] is "51464952", the decimal codes of the characters
    '3' '.' '1' '4' one after the other, so that [getValue] returns
    51464952 and not 3.14. *)
Theorem number_value_3_14 :
  forall k : nat,
    exists lx1,
      getNextToken LexerBuffer_readNextLine (5 + k) (lexerOf (codes "3.14"))
      = Done (tok_number, lx1)
      /\ getValue false lx1 = Done (numVal lx1)
      /\ numVal lx1 = strtod (code_digits (codes "3.14"))
      /\ code_digits (codes "3.14") = "51464952"%string
      /\ (numVal lx1 == 51464952)%Q
      /\ (strtod "3.14" == 314 # 100)%Q
      /\ ~ (numVal lx1 == strtod "3.14")%Q.
Proof.
  intros k. eexists. split.
  - apply (getNextToken_fuel _ LexerBuffer_readNextLine 5);
      [vm_compute; reflexivity | lia].
  - repeat split; try reflexivity. intros H. vm_compute in H. discriminate H.
Qed.

(** C3, as the code has it: over "def\nfoo", the token of "def" is located
    at line 1, column 1, and the token of "foo" at line 2, column 1 (a
    location is recorded when the first character of the token is already
    the lookahead, so the first column of a line is column 1). *)
Theorem locations_def_foo :
  forall k : nat,
    exists lx1 lx2,
      getNextToken LexerBuffer_readNextLine (5 + k)
        (lexerOf (codes ("def" ++ nl ++ "foo")))
      = Done (tok_def, lx1)
      /\ getLastLocation lx1 = mkLocation "input" 1 1
      /\ getNextToken LexerBuffer_readNextLine (5 + k) lx1
         = Done (tok_identifier, lx2)
      /\ identifierStr lx2 = "foo"%string
      /\ getLastLocation lx2 = mkLocation "input" 2 1.
Proof.
  intros k. eexists. eexists. split.
  - apply (getNextToken_fuel _ LexerBuffer_readNextLine 5);
      [vm_compute; reflexivity | lia].
  - split; [reflexivity|]. split.
    + apply (getNextToken_fuel _ LexerBuffer_readNextLine 5);
        [vm_compute; reflexivity | lia].
    + split; reflexivity.
Qed.

(** The column recorded for "def" is not 0. *)
Lemma def_column_is_not_zero :
  exists lx1,
    getNextToken LexerBuffer_readNextLine 5
      (lexerOf (codes ("def" ++ nl ++ "foo")))
    = Done (tok_def, lx1)
    /\ col (getLastLocation lx1) <> 0.
Proof.
  eexists. split; [vm_compute; reflexivity | discriminate].
Qed.

(** The reset of the column counter at a newline: after "abc" it is 3,
    and the newline that follows sets it to 0. *)
Example column_reset_at_newline :
  curCol (readChars LexerBuffer_readNextLine 4
            (lexerOf (codes ("abc" ++ nl)))) = 3
  /\ curCol (snd (getNextChar LexerBuffer_readNextLine
                    (readChars LexerBuffer_readNextLine 4
                       (lexerOf (codes ("abc" ++ nl)))))) = 0
  /\ ~ (curCol (readChars LexerBuffer_readNextLine 4
                  (lexerOf (codes ("abc" ++ nl))))
        <= curCol (snd (getNextChar LexerBuffer_readNextLine
                          (readChars LexerBuffer_readNextLine 4
                             (lexerOf (codes ("abc" ++ nl))))))).
Proof.
  split; [reflexivity|]. split; [reflexivity|].
  intros H. vm_compute in H. apply H. reflexivity.
Qed.

(** [consume] with a token that is not the current one hands back no error
    value: with assertions the process is aborted, and without them the
    lexer moves on (here the line buffer is used up). *)
Lemma consume_mismatch_no_error_value :
  tok_def <> curTok (lexerOf (codes "x"))
  /\ consume LexerBuffer_readNextLine false 5 tok_def (lexerOf (codes "x"))
     = Abort "consume Token mismatch expectation"
  /\ consume LexerBuffer_readNextLine false 5 tok_def (lexerOf (codes "x"))
     <> Done (lexerOf (codes "x"))
  /\ consume LexerBuffer_readNextLine true 5 tok_def (lexerOf (codes "x"))
     <> Done (lexerOf (codes "x")).
Proof.
  split; [discriminate|]. split; [reflexivity|].
  split; [discriminate|]. vm_compute. discriminate.
Qed.

(** *** The theorems above, at concrete inputs *)

Lemma consume_mismatch_witness :
  tok_def <> curTok (lexerOf (codes "x"))
  /\ consume LexerBuffer_readNextLine false 5 tok_def (lexerOf (codes "x"))
     = Abort "consume Token mismatch expectation"
  /\ consume LexerBuffer_readNextLine true 5 tok_def (lexerOf (codes "x"))
     = (r <- getNextToken LexerBuffer_readNextLine 5 (lexerOf (codes "x")) ;;
        Done (snd r)).
Proof.
  assert (H : tok_def <> curTok (lexerOf (codes "x"))) by discriminate.
  split; [exact H|].
  exact (consume_mismatch _ LexerBuffer_readNextLine 5 tok_def
           (lexerOf (codes "x")) H).
Defined.

Lemma eof_is_repeated_witness :
  getNextToken LexerBuffer_readNextLine 5 (lexerOf [])
  = Done (tok_eof, atEOF (readChars LexerBuffer_readNextLine 2 (lexerOf [])))
  /\ getNextTokens LexerBuffer_readNextLine 1 4
       (atEOF (readChars LexerBuffer_readNextLine 2 (lexerOf [])))
     = Done (repeat tok_eof 4,
             atEOF (atEOF (readChars LexerBuffer_readNextLine 2 (lexerOf [])))).
Proof.
  assert (H : getNextToken LexerBuffer_readNextLine 5 (lexerOf [])
              = Done (tok_eof,
                      atEOF (readChars LexerBuffer_readNextLine 2 (lexerOf []))))
    by reflexivity.
  split; [exact H|].
  exact (proj1 (eof_is_repeated _ LexerBuffer_readNextLine 5 (lexerOf [])
                  _ H 4%nat 0%nat)).
Defined.

Lemma identifier_or_keyword_witness :
  forallb isspace [chr " "; newline] = true
  /\ identifier_shaped "foo" = true
  /\ identifier_char EOF = false
  /\ exists (tok : Token) (lx' : LexerBuffer),
      getNextToken LexerBuffer_readNextLine 6 (lexerOf (codes "foo"))
      = Done (tok, lx')
      /\ getCurToken lx' = tok
      /\ identifierStr lx' = "foo"%string
      /\ ("foo"%string = "return"%string -> tok = tok_return)
      /\ ("foo"%string = "var"%string -> tok = tok_var)
      /\ ("foo"%string = "def"%string -> tok = tok_def)
      /\ ("foo"%string <> "return"%string -> "foo"%string <> "var"%string ->
          "foo"%string <> "def"%string ->
          tok = tok_identifier /\ getId false lx' = Done "foo"%string).
Proof.
  split; [reflexivity|]. split; [reflexivity|]. split; [reflexivity|].
  exact (identifier_or_keyword _ LexerBuffer_readNextLine
           (lexerOf (codes "foo")) [chr " "; newline] "foo" EOF 0
           eq_refl eq_refl eq_refl eq_refl).
Defined.

(** The three keywords, and a word that only starts like one. *)
Example keywords_by_evaluation :
  option_map fst
    (match getNextTokens LexerBuffer_readNextLine 10 5
             (lexerOf (codes "return var def Def returns")) with
     | Done r => Some r
     | _ => None
     end)
  = Some [tok_return; tok_var; tok_def; tok_identifier; tok_identifier].
Proof. vm_compute. reflexivity. Qed.

Lemma blank_input_only_eof_witness :
  blank false (codes ("# comment only" ++ nl)) = true
  /\ exists lx',
      getNextTokens LexerBuffer_readNextLine 18 3
        (lexerOf (codes ("# comment only" ++ nl)))
      = Done ([tok_eof; tok_eof; tok_eof], lx').
Proof.
  split; [reflexivity|].
  exact (blank_input_only_eof (codes ("# comment only" ++ nl)) 3 0 eq_refl).
Defined.

(** The scenario of the specification: a whole function. *)
Example tokens_of_a_function :
  exists lx',
    getNextTokens LexerBuffer_readNextLine 10 11
      (lexerOf (codes ("def foo(x) {" ++ nl ++ " return x;" ++ nl ++ "}")))
    = Done ([tok_def; tok_identifier; tok_parenthese_open; tok_identifier;
             tok_parenthese_close; tok_bracket_open; tok_return;
             tok_identifier; tok_semicolon; tok_bracket_close; tok_eof], lx').
Proof. eexists. vm_compute. reflexivity. Qed.

(** * Further properties of the code *)

(** ** The lines of a buffer *)

(** [readNextLine] cuts the buffer in two: the line and what is left.  The
    line holds no NUL, holds a newline only as its last character, and is
    empty exactly when the buffer is used up or starts with a NUL. *)
Theorem readNextLine_line :
  forall mem : list Z,
    fst (LexerBuffer_readNextLine mem) ++ snd (LexerBuffer_readNextLine mem)
    = mem
    /\ forallb (fun c => negb (c =? 0)) (fst (LexerBuffer_readNextLine mem))
       = true
    /\ forallb (fun c => negb (c =? newline))
         (removelast (fst (LexerBuffer_readNextLine mem))) = true
    /\ (fst (LexerBuffer_readNextLine mem) = [] <-> hd 0 mem = 0).
Proof.
  intros mem. split; [apply readNextLine_split|].
  induction mem as [|c mem IH].
  - cbn. repeat split; reflexivity.
  - cbn [LexerBuffer_readNextLine hd].
    destruct (c =? 0) eqn:E0.
    + cbn. apply Z.eqb_eq in E0. repeat split; auto.
    + destruct (c =? newline) eqn:En.
      * cbn. rewrite E0. apply Z.eqb_neq in E0.
        split; [reflexivity|]. split; [reflexivity|].
        split; [discriminate | intros H; contradiction].
      * destruct IH as (Hz & Hn & _).
        destruct (LexerBuffer_readNextLine mem) as [l r]. cbn [fst] in *.
        apply Z.eqb_neq in E0 as E0'.
        split; [cbn; rewrite E0; exact Hz|].
        split; [|split; [discriminate | intros H; contradiction]].
        destruct l as [|d l]; [reflexivity|].
        change (removelast (c :: d :: l)) with (c :: removelast (d :: l)).
        cbn [forallb]. rewrite En. exact Hn.
Qed.

(** At the end of the buffer [readNextLine] returns the empty line and
    stays where it is: every later call returns the empty line again. *)
Theorem readNextLine_end :
  forall mem : list Z,
    fst (LexerBuffer_readNextLine mem) = [] ->
    LexerBuffer_readNextLine mem = ([], mem)
    /\ LexerBuffer_readNextLine (snd (LexerBuffer_readNextLine mem))
       = ([], mem).
Proof.
  intros mem H.
  assert (E : LexerBuffer_readNextLine mem = ([], mem)).
  { destruct mem as [|c mem]; [reflexivity|].
    cbn [LexerBuffer_readNextLine] in *.
    destruct (c =? 0); [reflexivity|].
    destruct (c =? newline); [discriminate|].
    destruct (LexerBuffer_readNextLine mem); discriminate. }
  rewrite E. cbn [snd]. split; [reflexivity | exact E].
Qed.

Lemma readNextLine_end_witness :
  fst (LexerBuffer_readNextLine [0; chr "x"]) = []
  /\ LexerBuffer_readNextLine [0; chr "x"] = ([], [0; chr "x"])
  /\ LexerBuffer_readNextLine (snd (LexerBuffer_readNextLine [0; chr "x"]))
     = ([], [0; chr "x"]).
Proof.
  split; [reflexivity|].
  exact (readNextLine_end [0; chr "x"] eq_refl).
Defined.

(** ** The characters of a buffer *)

Lemma lookahead_at_end :
  forall (n : nat) (lx : LexerBuffer),
    pending lx = [] ->
    consistent lx ->
    lookahead LexerBuffer_readNextLine (S n) lx = last_char lx :: repeat EOF n.
Proof.
  induction n as [|n IH]; intros lx Hp Hc; [reflexivity|].
  destruct (readChar_pending lx Hc) as (Hc' & Hlast & Hpend).
  rewrite Hp in Hlast, Hpend. cbn [hd tl] in Hlast, Hpend.
  change (lookahead LexerBuffer_readNextLine (S (S n)) lx)
    with (last_char lx
          :: lookahead LexerBuffer_readNextLine (S n)
               (readChar LexerBuffer_readNextLine lx)).
  rewrite (IH _ Hpend Hc'), Hlast. reflexivity.
Qed.

Lemma lookahead_pending_then_EOF :
  forall (p : list Z) (n : nat) (lx : LexerBuffer),
    pending lx = p ->
    consistent lx ->
    lookahead LexerBuffer_readNextLine (S (List.length p) + n) lx
    = (last_char lx :: p) ++ repeat EOF n.
Proof.
  induction p as [|c p IH]; intros n lx Hp Hc.
  - cbn [List.length Nat.add app]. apply lookahead_at_end; assumption.
  - destruct (readChar_pending lx Hc) as (Hc' & Hlast & Hpend).
    rewrite Hp in Hlast, Hpend. cbn [hd tl] in Hlast, Hpend.
    cbn [List.length Nat.add lookahead app].
    pose proof (IH n _ Hpend Hc') as H.
    cbn [Nat.add lookahead app] in H. rewrite H, Hlast. reflexivity.
Qed.

(** The characters a new lexer over a buffer sees are the initial space
    and newline, then the characters of the buffer that come before its
    first NUL, in order and whatever the lines they are in, then [EOF] for
    ever. *)
Theorem new_lexer_characters :
  forall (mem : list Z) (filename : string) (n : nat),
    lookahead LexerBuffer_readNextLine (S (S (List.length (live mem))) + n)
      (LexerBuffer_new mem filename)
    = chr " " :: newline :: live mem ++ repeat EOF n.
Proof.
  intros mem filename n.
  apply (lookahead_pending_then_EOF (newline :: live mem) n
           (LexerBuffer_new mem filename)); [reflexivity|].
  intros H. discriminate H.
Qed.

(** ** The names of the tokens *)


(** ** Progress over a buffer *)

Lemma lexIdentifier_progress :
  forall (fuel : nat) (lx : LexerBuffer),
    last_char lx <> EOF ->
    (budget lx <= fuel)%nat ->
    exists lx',
      lexIdentifier LexerBuffer_readNextLine fuel lx = Done lx'
      /\ (budget lx' < budget lx)%nat.
Proof.
  intros fuel lx Hne H. destruct fuel as [|fuel].
  - pose proof (budget_positive lx Hne). lia.
  - cbn [lexIdentifier].
    destruct (readChar_budget lx) as [_ Hlt]. specialize (Hlt Hne).
    destruct (isalnum (last_char (readChar LexerBuffer_readNextLine lx))
              || (last_char (readChar LexerBuffer_readNextLine lx) =? chr "_"))
      eqn:E.
    + set (lx1 := with_identifierStr _ _).
      assert (Hb1 : budget lx1
                    = budget (readChar LexerBuffer_readNextLine lx))
        by reflexivity.
      destruct (lexIdentifier_terminates fuel lx1) as (lx' & Hrun & Hb).
      * unfold lx1. cbn [last_char with_identifierStr]. intros Heof.
        rewrite Heof in E. discriminate E.
      * lia.
      * exists lx'. split; [exact Hrun | lia].
    + eexists. split; [reflexivity | lia].
Qed.

Lemma lexNumber_progress :
  forall (fuel : nat) (numStr : string) (lx : LexerBuffer),
    last_char lx <> EOF ->
    (budget lx <= fuel)%nat ->
    exists r,
      lexNumber LexerBuffer_readNextLine fuel numStr lx = Done r
      /\ (budget (snd r) < budget lx)%nat.
Proof.
  intros fuel numStr lx Hne H. destruct fuel as [|fuel].
  - pose proof (budget_positive lx Hne). lia.
  - cbn [lexNumber].
    destruct (readChar_budget lx) as [_ Hlt]. specialize (Hlt Hne).
    destruct (isdigit (last_char (readChar LexerBuffer_readNextLine lx))
              || (last_char (readChar LexerBuffer_readNextLine lx) =? chr "."))
      eqn:E.
    + destruct (lexNumber_terminates fuel
                  (numStr ++ to_string (last_char lx))%string
                  (readChar LexerBuffer_readNextLine lx)) as (r & Hrun & Hb).
      * intros Heof. rewrite Heof in E. discriminate E.
      * lia.
      * exists r. split; [exact Hrun | lia].
    + eexists. split; [reflexivity | cbn [snd]; lia].
Qed.

Lemma getTok_progress :
  forall (fuel : nat) (lx : LexerBuffer),
    (budget lx < fuel)%nat ->
    exists t lx',
      getTok LexerBuffer_readNextLine fuel lx = Done (t, lx')
      /\ (budget lx' <= budget lx)%nat
      /\ (t <> tok_eof -> (budget lx' < budget lx)%nat).
Proof.
  induction fuel as [|fuel IH]; intros lx H; [lia|].
  rewrite getTok_S.
  destruct (skipWhitespace_terminates (S fuel) lx H) as (lx1 & Hws & Hb1).
  rewrite Hws. cbn [bind]. cbv zeta.
  set (lx2 := with_lastLocation _ lx1).
  assert (Hb2 : budget lx2 = budget lx1) by reflexivity.
  assert (Htail : exists t lx',
             eofOrChar LexerBuffer_readNextLine lx2 = Done (t, lx')
             /\ (budget lx' <= budget lx2)%nat
             /\ (t <> tok_eof -> (budget lx' < budget lx2)%nat)).
  { unfold eofOrChar. destruct (last_char lx2 =? EOF) eqn:E.
    - exists tok_eof, lx2. split; [reflexivity|]. split; [lia|].
      intros Hc. contradiction.
    - apply Z.eqb_neq in E. destruct (readChar_budget lx2) as [Hle Hlt].
      eexists _, _. split; [reflexivity|]. split; [exact Hle|].
      intros _. exact (Hlt E). }
  destruct (isalpha (last_char lx2)) eqn:Ealpha.
  - set (lx3 := with_identifierStr _ lx2).
    assert (Hb3 : budget lx3 = budget lx2) by reflexivity.
    destruct (lexIdentifier_progress (S fuel) lx3) as (lx' & Hrun & Hb).
    + unfold lx3. cbn [last_char with_identifierStr]. intros Heof.
      rewrite Heof in Ealpha. discriminate Ealpha.
    + lia.
    + rewrite Hrun. cbn [bind]. eexists _, _.
      split; [reflexivity|]. split; lia.
  - destruct (isdigit (last_char lx2) || (last_char lx2 =? chr ".")) eqn:Enum.
    + destruct (lexNumber_progress (S fuel) "" lx2) as (r & Hrun & Hb).
      * intros Heof. rewrite Heof in Enum. discriminate Enum.
      * lia.
      * rewrite Hrun. cbn [bind]. eexists _, _. split; [reflexivity|].
        change (budget (with_numVal (strtod (fst r)) (snd r)))
          with (budget (snd r)).
        split; lia.
    + destruct (last_char lx2 =? chr "#") eqn:Ehash.
      * destruct (skipComment_terminates (S fuel) lx2) as (lx3 & Hrun & Hb).
        -- intros Heof. rewrite Heof in Ehash. discriminate Ehash.
        -- lia.
        -- rewrite Hrun. cbn [bind].
           destruct (negb (last_char lx3 =? EOF)) eqn:Eeof.
           ++ destruct (IH lx3) as (t & lx' & Hrec & Hb' & _); [lia|].
              exists t, lx'. split; [exact Hrec|]. split; lia.
           ++ unfold eofOrChar. apply negb_false_iff in Eeof. rewrite Eeof.
              exists tok_eof, lx3. split; [reflexivity|]. split; [lia|].
              intros Hc. contradiction.
      * destruct Htail as (t & lx' & Hrun & Hb & Hlt).
        exists t, lx'. split; [exact Hrun|]. split; [lia|].
        intros Ht. specialize (Hlt Ht). lia.
Qed.

Lemma getNextToken_progress :
  forall (fuel : nat) (lx : LexerBuffer),
    (budget lx < fuel)%nat ->
    exists t lx',
      getNextToken LexerBuffer_readNextLine fuel lx = Done (t, lx')
      /\ getCurToken lx' = t
      /\ (budget lx' <= budget lx)%nat
      /\ (t <> tok_eof -> (budget lx' < budget lx)%nat)
      /\ (t = tok_eof -> last_char lx' = EOF).
Proof.
  intros fuel lx H. unfold getNextToken.
  destruct (getTok_progress fuel lx H) as (t & lx' & Hrun & Hb & Hlt).
  destruct (getTok_inv _ _ _ _ _ _ Hrun) as (_ & _ & _ & _ & Heof).
  rewrite Hrun. cbn [bind fst snd].
  exists t, (with_curTok t lx'). repeat split; assumption.
Qed.

(** Over a buffer [getNextToken] returns, whatever the state of the lexer.
    It puts no character back, a call that returns a token other than the
    end-of-input takes at least one character, and the end-of-input token
    is only returned with [EOF] as the lookahead. *)
Theorem getNextToken_returns :
  forall (fuel : nat) (lx : LexerBuffer),
    (budget lx < fuel)%nat ->
    exists t lx',
      getNextToken LexerBuffer_readNextLine fuel lx = Done (t, lx')
      /\ getCurToken lx' = t
      /\ (budget lx' <= budget lx)%nat
      /\ (t <> tok_eof -> (budget lx' < budget lx)%nat)
      /\ (t = tok_eof -> last_char lx' = EOF).
Proof.
  intros fuel lx H. unfold getNextToken.
  destruct (getTok_progress fuel lx H) as (t & lx' & Hrun & Hb & Hlt).
  destruct (getTok_inv _ _ _ _ _ _ Hrun) as (_ & _ & _ & _ & Heof).
  rewrite Hrun. cbn [bind fst snd].
  exists t, (with_curTok t lx'). repeat split; assumption.
Qed.

Lemma getNextToken_returns_witness :
  (budget (lexerOf (codes "a+b")) < 7)%nat
  /\ exists t lx',
      getNextToken LexerBuffer_readNextLine 7 (lexerOf (codes "a+b"))
      = Done (t, lx')
      /\ getCurToken lx' = t
      /\ (budget lx' <= budget (lexerOf (codes "a+b")))%nat
      /\ (t <> tok_eof -> (budget lx' < budget (lexerOf (codes "a+b")))%nat)
      /\ (t = tok_eof -> last_char lx' = EOF).
Proof.
  assert (H : (budget (lexerOf (codes "a+b")) < 7)%nat) by (vm_compute; lia).
  split; [exact H|].
  exact (getNextToken_returns 7 (lexerOf (codes "a+b")) H).
Defined.

Lemma last_repeat :
  forall (A : Type) (x d : A) (n : nat), last (x :: repeat x n) d = x.
Proof.
  induction n as [|n IH]; [reflexivity|].
  change (last (x :: repeat x (S n)) d) with (last (x :: repeat x n) d).
  exact IH.
Qed.

Lemma getNextTokens_S :
  forall (Source : Type) (R : Source -> list Z * Source)
         (fuel n : nat) (lx : Lexer Source),
    getNextTokens R fuel (S n) lx
    = (r <- getNextToken R fuel lx ;;
       rs <- getNextTokens R fuel n (snd r) ;;
       Done (fst r :: fst rs, snd rs)).
Proof. reflexivity. Qed.

(** The token stream of a buffer ends: a lexer with at most [n] characters
    of work left returns the end-of-input token at its call number [n + 1]
    at the latest. *)
Theorem token_stream_ends :
  forall (n fuel : nat) (lx : LexerBuffer),
    (budget lx < fuel)%nat ->
    (budget lx <= n)%nat ->
    exists toks lx',
      getNextTokens LexerBuffer_readNextLine fuel (S n) lx = Done (toks, lx')
      /\ List.length toks = S n
      /\ last toks tok_number = tok_eof.
Proof.
  induction n as [|n IH]; intros fuel lx Hf Hn;
    destruct (getNextToken_progress fuel lx Hf)
      as (t & lx1 & Hrun & _ & Hb & Hlt & Heof);
    rewrite getNextTokens_S, Hrun; cbn [bind fst snd];
    (destruct (Z.eq_dec t tok_eof) as [Ht|Ht];
     [ destruct fuel as [|fuel]; [lia|];
       rewrite (getNextTokens_at_EOF _ _ _ fuel lx1 (Heof Ht));
       cbn [bind fst snd]; eexists _, _; split; [reflexivity|];
       split; [cbn [List.length]; rewrite repeat_length; reflexivity|];
       subst t; apply last_repeat
     | specialize (Hlt Ht) ]).
  - lia.
  - destruct (IH fuel lx1) as (toks & lx' & Hrest & Hlen & Hlast);
      [lia | lia |].
    rewrite Hrest. cbn [bind fst snd].
    exists (t :: toks), lx'. split; [reflexivity|].
    split; [cbn [List.length]; lia|].
    destruct toks as [|u toks]; [discriminate Hlen | exact Hlast].
Qed.

Lemma token_stream_ends_witness :
  (budget (lexerOf (codes "a+b")) < 7)%nat
  /\ (budget (lexerOf (codes "a+b")) <= 6)%nat
  /\ exists toks lx',
      getNextTokens LexerBuffer_readNextLine 7 7 (lexerOf (codes "a+b"))
      = Done (toks, lx')
      /\ List.length toks = 7%nat
      /\ last toks tok_number = tok_eof.
Proof.
  assert (H1 : (budget (lexerOf (codes "a+b")) < 7)%nat)
    by (vm_compute; lia).
  assert (H2 : (budget (lexerOf (codes "a+b")) <= 6)%nat)
    by (vm_compute; lia).
  split; [exact H1|]. split; [exact H2|].
  exact (token_stream_ends 6 7 (lexerOf (codes "a+b")) H1 H2).
Defined.

(** ** Other tokens, and the accessors *)

Section OtherTokens.

Variable Source : Type.
Variable R : Source -> list Z * Source.   (* the source's [readNextLine] *)

(** A character that starts no identifier, number or comment and is not
    [EOF] is a token of its own, of the value of the character: the call
    takes that one character and records where it was. *)
Theorem single_character_token :
  forall (lx : Lexer Source) (ws : list Z) (c : Z) (k : nat),
    forallb isspace ws = true ->
    isspace c = false ->
    isalpha c = false ->
    number_char c = false ->
    c <> chr "#" ->
    c <> EOF ->
    lookahead R (List.length ws + 1) lx = ws ++ [c] ->
    getNextToken R (List.length ws + 1 + k) lx
    = Done (c,
            with_curTok c
              (with_lastLocation
                 (mkLocation
                    (file (lastLocation (readChars R (List.length ws) lx)))
                    (curLineNum (readChars R (List.length ws) lx))
                    (curCol (readChars R (List.length ws) lx)))
                 (readChars R (List.length ws + 1) lx))).
Proof.
  intros lx ws c k Hws Hsp Hal Hnum Hhash Heof Hla.
  apply lookahead_app in Hla as [Hla Hend].
  cbn [lookahead] in Hend. injection Hend as Hend.
  replace (List.length ws + 1 + k)%nat with (S (List.length ws + k)) by lia.
  unfold getNextToken. rewrite getTok_S.
  rewrite (skipWhitespace_spec _ R ws lx _ Hws Hla);
    [|rewrite Hend; exact Hsp | lia].
  cbn [bind]. cbv zeta. unfold eofOrChar.
  cbn [last_char with_lastLocation]. rewrite Hend, Hal.
  fold (number_char c). rewrite Hnum.
  apply Z.eqb_neq in Hhash, Heof. rewrite Hhash, Heof.
  cbn [bind fst snd].
  rewrite readChar_with_lastLocation, readChars_plus. reflexivity.
Qed.

(** Any run of digits and decimal points, whatever the number of points,
    is one number token, and [getValue] then passes its assertion. *)
Theorem number_token :
  forall (lx : Lexer Source) (ws : list Z) (c : Z) (cs : list Z) (t : Z)
         (k : nat),
    forallb isspace ws = true ->
    forallb number_char (c :: cs) = true ->
    number_char t = false ->
    lookahead R (List.length ws + (S (List.length cs) + 1)) lx
    = ws ++ (c :: cs) ++ [t] ->
    exists lx',
      getNextToken R (List.length ws + List.length cs + 1 + k) lx
      = Done (tok_number, lx')
      /\ getCurToken lx' = tok_number
      /\ last_char lx' = t
      /\ getValue false lx' = Done (numVal lx').
Proof.
  intros lx ws c cs t k Hws Hcs Ht Hla.
  cbn [forallb] in Hcs. apply andb_true_iff in Hcs as [Hc Hcs].
  destruct (getTok_number _ R ws c cs t lx
              (List.length ws + List.length cs + k) Hws Hc Hcs Ht Hla)
    as (lx' & Hrun & _ & Hlast); [lia | lia |].
  replace (List.length ws + List.length cs + 1 + k)%nat
    with (S (List.length ws + List.length cs + k)) by lia.
  unfold getNextToken. rewrite Hrun. cbn [bind fst snd].
  eexists. split; [reflexivity|]. repeat split. exact Hlast.
Qed.

(** After [getNextToken] has returned a token, that token is the current
    one: [consume] of it passes its assertion and moves on as
    [getNextToken] does, [getId] passes its assertion exactly for the
    identifier token (not for a keyword) and [getValue] exactly for the
    number token. *)
Theorem after_getNextToken :
  forall (fuel : nat) (lx : Lexer Source) (t : Token) (lx' : Lexer Source),
    getNextToken R fuel lx = Done (t, lx') ->
    getCurToken lx' = t
    /\ (forall (NDEBUG : bool) (fuel' : nat),
           consume R NDEBUG fuel' t lx'
           = (r <- getNextToken R fuel' lx' ;; Done (snd r)))
    /\ getId false lx'
       = (if t =? tok_identifier then Done (identifierStr lx')
          else Abort "curTok == tok_identifier")
    /\ getValue false lx'
       = (if t =? tok_number then Done (numVal lx')
          else Abort "curTok == tok_number").
Proof.
  intros fuel lx t lx' H. unfold getNextToken in H.
  destruct (getTok R fuel lx) as [[t0 lx0]| |]; try discriminate.
  cbn [bind fst snd] in H. injection H as <- <-.
  split; [reflexivity|]. split.
  - intros NDEBUG fuel'.
    exact (consume_match _ R NDEBUG fuel' (with_curTok t0 lx0)).
  - unfold getId, getValue, assert_. cbn [curTok with_curTok orb].
    split; destruct (_ =? _); reflexivity.
Qed.

End OtherTokens.

Lemma single_character_token_witness :
  forallb isspace [chr " "; newline] = true
  /\ isspace (chr "+") = false
  /\ isalpha (chr "+") = false
  /\ number_char (chr "+") = false
  /\ chr "+" <> chr "#"
  /\ chr "+" <> EOF
  /\ option_map fst
       (match getNextToken LexerBuffer_readNextLine 3 (lexerOf (codes "+1"))
        with Done r => Some r | _ => None end)
     = Some (chr "+").
Proof.
  assert (H1 : chr "+" <> chr "#") by discriminate.
  assert (H2 : chr "+" <> EOF) by discriminate.
  repeat (split; [first [reflexivity | assumption]|]).
  pose proof (single_character_token _ LexerBuffer_readNextLine
                (lexerOf (codes "+1")) [chr " "; newline] (chr "+") 0
                eq_refl eq_refl eq_refl eq_refl H1 H2 eq_refl) as H.
  change (List.length [chr " "; newline] + 1 + 0)%nat with 3%nat in H.
  rewrite H. reflexivity.
Defined.

Lemma number_token_witness :
  forallb isspace [chr " "; newline] = true
  /\ forallb number_char (codes "1.2.3") = true
  /\ number_char (chr ";") = false
  /\ exists lx',
      getNextToken LexerBuffer_readNextLine 7 (lexerOf (codes "1.2.3;"))
      = Done (tok_number, lx')
      /\ getCurToken lx' = tok_number
      /\ last_char lx' = chr ";"
      /\ getValue false lx' = Done (numVal lx').
Proof.
  split; [reflexivity|]. split; [reflexivity|]. split; [reflexivity|].
  exact (number_token _ LexerBuffer_readNextLine (lexerOf (codes "1.2.3;")) [chr " "; newline]
           (chr "1") (codes ".2.3") (chr ";") 0
           eq_refl eq_refl eq_refl eq_refl).
Defined.

Lemma after_getNextToken_witness :
  getNextToken LexerBuffer_readNextLine 5 (lexerOf (codes "def"))
  = Done (tok_def,
          with_curTok tok_def
            (with_identifierStr "def"
               (with_lastLocation (mkLocation "input" 1 1)
                  (readChars LexerBuffer_readNextLine 5
                     (lexerOf (codes "def"))))))
  /\ getId false
       (with_curTok tok_def
          (with_identifierStr "def"
             (with_lastLocation (mkLocation "input" 1 1)
                (readChars LexerBuffer_readNextLine 5
                   (lexerOf (codes "def"))))))
     = Abort "curTok == tok_identifier".
Proof.
  assert (H : getNextToken LexerBuffer_readNextLine 5 (lexerOf (codes "def"))
              = Done (tok_def,
                      with_curTok tok_def
                        (with_identifierStr "def"
                           (with_lastLocation (mkLocation "input" 1 1)
                              (readChars LexerBuffer_readNextLine 5
                                 (lexerOf (codes "def")))))))
    by reflexivity.
  split; [exact H|].
  exact (proj1 (proj2 (proj2
           (after_getNextToken _ LexerBuffer_readNextLine 5 (lexerOf (codes "def")) tok_def _ H)))).
Defined.

(** ** Lines, columns and locations *)

Lemma position_after_no_newline :
  forall (cs : list Z) (ln cl : Z),
    forallb (fun c => negb (c =? newline)) cs = true ->
    position_after cs ln cl = (ln, cl + Z.of_nat (List.length cs)).
Proof.
  induction cs as [|c cs IH]; intros ln cl H.
  - cbn. f_equal. lia.
  - cbn [forallb] in H. apply andb_true_iff in H as [Hc H].
    apply negb_true_iff in Hc. cbn [position_after]. rewrite Hc.
    rewrite (IH ln (cl + 1) H). f_equal. cbn [List.length]. lia.
Qed.

Lemma forallb_isspace_not_EOF :
  forall ws : list Z,
    forallb isspace ws = true ->
    forallb (fun c => negb (c =? EOF)) ws = true.
Proof.
  induction ws as [|c ws IH]; intros H; [reflexivity|].
  cbn [forallb] in *. apply andb_true_iff in H as [Hc H].
  rewrite (IH H), andb_true_r. apply negb_true_iff, Z.eqb_neq.
  apply isspace_not_EOF. exact Hc.
Qed.

Section Locations.

Variable Source : Type.
Variable R : Source -> list Z * Source.   (* the source's [readNextLine] *)

Lemma readChar_cases :
  forall lx : Lexer Source,
    (last_char (readChar R lx) = EOF
     /\ curLineNum (readChar R lx) = curLineNum lx
     /\ curCol (readChar R lx) = curCol lx)
    \/ (curLineNum (readChar R lx)
        = (if last_char (readChar R lx) =? newline
           then curLineNum lx + 1 else curLineNum lx)
        /\ curCol (readChar R lx)
           = (if last_char (readChar R lx) =? newline
              then 0 else curCol lx + 1)).
Proof.
  intros lx. destruct (curLineBuffer lx) as [|c rest] eqn:E.
  - left. unfold readChar. rewrite (getNextChar_empty _ R lx E).
    repeat split.
  - right. destruct (getNextChar_cons _ R lx c rest E) as (Hc & Hl & Hk).
    destruct (getNextChar_frame _ R lx) as (_ & _ & _ & _ & _).
    unfold readChar. destruct (getNextChar R lx) as [c' lx'].
    cbn [fst snd] in *. subst c'.
    cbn [last_char curLineNum curCol with_last_char]. split; assumption.
Qed.

(** The line counter counts the newlines that were read: after [n]
    characters it has grown by the number of newlines among them. *)
Theorem line_counts_newlines :
  forall (n : nat) (lx : Lexer Source),
    curLineNum (readChars R n lx)
    = curLineNum lx
      + Z.of_nat (count_occ Z.eq_dec (lookahead R n (readChar R lx)) newline).
Proof.
  induction n as [|n IH]; intros lx.
  - cbn. lia.
  - cbn [readChars lookahead]. rewrite IH.
    cbn [count_occ].
    destruct (readChar_cases lx) as [(He & Hl & _)|(Hl & _)]; rewrite Hl.
    + rewrite He.
      destruct (Z.eq_dec EOF newline) as [Hc|_]; [discriminate Hc | lia].
    + destruct (Z.eq_dec (last_char (readChar R lx)) newline) as [Hc|Hc].
      * rewrite Hc, Z.eqb_refl. lia.
      * apply Z.eqb_neq in Hc. rewrite Hc. lia.
Qed.

Lemma readChars_position :
  forall (cs : list Z) (lx : Lexer Source),
    lookahead R (List.length cs) (readChar R lx) = cs ->
    forallb (fun c => negb (c =? EOF)) cs = true ->
    position_after cs (curLineNum lx) (curCol lx)
    = (curLineNum (readChars R (List.length cs) lx),
       curCol (readChars R (List.length cs) lx)).
Proof.
  induction cs as [|c cs IH]; intros lx Hla Hne; [reflexivity|].
  cbn [List.length lookahead forallb readChars] in *.
  injection Hla as Hc Hla. apply andb_true_iff in Hne as [Hce Hne].
  rewrite <- (IH (readChar R lx) Hla Hne). cbn [position_after].
  destruct (readChar_cases lx) as [(He & _)|(Hl & Hk)].
  - rewrite Hc in He. rewrite He in Hce. cbv in Hce. discriminate Hce.
  - rewrite Hl, Hk, Hc. destruct (c =? newline); reflexivity.
Qed.

(** The column counter counts the characters read on the current line:
    after a newline and then the characters [b] of one line, it is the
    number of characters of [b]. *)
Theorem column_counts_line_characters :
  forall (a b : list Z) (lx : Lexer Source),
    lookahead R (List.length a + S (List.length b)) (readChar R lx)
    = a ++ newline :: b ->
    forallb (fun c => negb (c =? newline)) b = true ->
    forallb (fun c => negb (c =? EOF)) b = true ->
    curCol (readChars R (List.length a + S (List.length b)) lx)
    = Z.of_nat (List.length b).
Proof.
  intros a b lx Hla Hnl Hne.
  rewrite readChars_plus.
  set (lx1 := readChars R (List.length a) lx).
  assert (Hla1 : lookahead R (S (List.length b)) (readChar R lx1)
                 = newline :: b).
  { change (readChar R lx1) with (readChars R 1 lx1). unfold lx1.
    rewrite <- readChars_plus.
    replace (List.length a + 1)%nat with (1 + List.length a)%nat by lia.
    rewrite readChars_plus. cbn [readChars].
    apply lookahead_app in Hla as [_ Hla]. exact Hla. }
  assert (Hne' : forallb (fun c => negb (c =? EOF)) (newline :: b) = true)
    by (cbn [forallb]; rewrite Hne; reflexivity).
  pose proof (readChars_position (newline :: b) lx1 Hla1 Hne') as Hpos.
  apply (f_equal snd) in Hpos. cbn [snd List.length] in Hpos.
  rewrite <- Hpos. cbn [position_after]. rewrite Z.eqb_refl.
  rewrite (position_after_no_newline b _ _ Hnl). cbn [snd]. lia.
Qed.

(** The location a call records when no comment is met: the position
    reached after the white space. *)
Lemma getTok_location :
  forall (fuel : nat) (lx : Lexer Source) (t : Token) (lx' : Lexer Source),
    getTok R fuel lx = Done (t, lx') ->
    exists lx1,
      skipWhitespace R fuel lx = Done lx1
      /\ (last_char lx1 <> chr "#" ->
          lastLocation lx'
          = mkLocation (file (lastLocation lx1)) (curLineNum lx1) (curCol lx1)).
Proof.
  intros fuel lx t lx' H. destruct fuel as [|fuel]; [discriminate|].
  rewrite getTok_S in H.
  destruct (skipWhitespace R (S fuel) lx) as [lx1| |] eqn:E1; try discriminate.
  exists lx1. split; [reflexivity|]. intros Hhash.
  cbn [bind] in H. cbv zeta in H.
  set (lx2 := with_lastLocation _ lx1) in *.
  assert (Hloc2 : lastLocation lx2
                  = mkLocation (file (lastLocation lx1)) (curLineNum lx1)
                      (curCol lx1)) by reflexivity.
  destruct (isalpha (last_char lx2)).
  - destruct (lexIdentifier R (S fuel) _) as [lx3| |] eqn:E2; try discriminate.
    injection H as _ <-.
    destruct (lexIdentifier_inv _ _ _ _ _ E2) as (_ & Hloc).
    rewrite Hloc. exact Hloc2.
  - destruct (isdigit (last_char lx2) || (last_char lx2 =? chr ".")).
    + destruct (lexNumber R (S fuel) _ _) as [p| |] eqn:E2; try discriminate.
      injection H as _ <-.
      destruct (lexNumber_inv _ _ _ _ _ _ E2) as (_ & Hloc).
      cbn [lastLocation with_numVal]. rewrite Hloc. exact Hloc2.
    + destruct (last_char lx2 =? chr "#") eqn:Eh.
      * apply Z.eqb_eq in Eh. contradiction.
      * destruct (eofOrChar_inv _ _ _ _ _ H) as (_ & Hloc & _).
        rewrite Hloc. exact Hloc2.
Qed.

(** The location of a token that follows white space is the position of
    its first character: the file name of the lexer, and the line and the
    column reached after the characters read to get to it (the first
    character of the token included, so columns count from 1). *)
Theorem token_location :
  forall (lx : Lexer Source) (ws : list Z) (c : Z) (fuel : nat)
         (t : Token) (lx' : Lexer Source),
    forallb isspace ws = true ->
    isspace c = false ->
    c <> chr "#" ->
    c <> EOF ->
    lookahead R (List.length ws + 1) lx = ws ++ [c] ->
    getNextToken R fuel lx = Done (t, lx') ->
    getLastLocation lx'
    = mkLocation (file (lastLocation lx))
        (fst (position_after (tl (ws ++ [c])) (curLineNum lx) (curCol lx)))
        (snd (position_after (tl (ws ++ [c])) (curLineNum lx) (curCol lx))).
Proof.
  intros lx ws c fuel t lx' Hws Hsp Hhash Heof Hla H.
  unfold getNextToken in H.
  destruct (getTok R fuel lx) as [[t0 lx0]| |] eqn:E; try discriminate.
  cbn [bind fst snd] in H. injection H as _ <-.
  destruct (getTok_location _ _ _ _ E) as (lx1 & Hskip & Hloc).
  pose proof Hla as Hla'.
  apply lookahead_app in Hla' as [Hla1 Hend].
  cbn [lookahead] in Hend. injection Hend as Hend.
  assert (Hlx1 : lx1 = readChars R (List.length ws) lx).
  { pose proof (skipWhitespace_fuel _ R _ _ _ Hskip
                  (fuel + S (List.length ws))%nat) as H1.
    rewrite (skipWhitespace_spec _ R ws lx _ Hws Hla1) in H1;
      [|rewrite Hend; exact Hsp | lia].
    specialize (H1 ltac:(lia)). injection H1 as H1. symmetry. exact H1. }
  destruct (skipWhitespace_inv _ _ _ _ _ Hskip) as (_ & Hfile & _).
  unfold getLastLocation. cbn [lastLocation with_curTok].
  rewrite Hloc; [|rewrite Hlx1, Hend; exact Hhash].
  rewrite Hfile.
  assert (Hread : lookahead R (List.length (tl (ws ++ [c]))) (readChar R lx)
                  = tl (ws ++ [c])).
  { replace (List.length ws + 1)%nat with (S (List.length ws)) in Hla by lia.
    cbn [lookahead] in Hla. rewrite <- Hla. cbn [tl].
    rewrite lookahead_length. reflexivity. }
  assert (Hlen : List.length (tl (ws ++ [c])) = List.length ws).
  { destruct ws as [|w ws']; [reflexivity|].
    cbn [app tl List.length]. rewrite length_app. cbn. lia. }
  assert (Hne : forallb (fun x => negb (x =? EOF)) (tl (ws ++ [c])) = true).
  { apply forallb_isspace_not_EOF in Hws.
    destruct ws as [|w ws']; [reflexivity|].
    cbn [app tl forallb] in *. apply andb_true_iff in Hws as [_ Hws].
    rewrite forallb_app, Hws. cbn [forallb].
    apply Z.eqb_neq in Heof. rewrite Heof. reflexivity. }
  rewrite (readChars_position _ _ Hread Hne), Hlen, <- Hlx1. reflexivity.
Qed.

Lemma getTok_file :
  forall (fuel : nat) (lx : Lexer Source) (t : Token) (lx' : Lexer Source),
    getTok R fuel lx = Done (t, lx') ->
    file (lastLocation lx') = file (lastLocation lx).
Proof.
  induction fuel as [|fuel IH]; intros lx t lx' H; [discriminate|].
  rewrite getTok_S in H.
  destruct (skipWhitespace R (S fuel) lx) as [lx1| |] eqn:E1; try discriminate.
  destruct (skipWhitespace_inv _ _ _ _ _ E1) as (_ & Hloc1 & _).
  cbn [bind] in H. cbv zeta in H.
  set (lx2 := with_lastLocation _ lx1) in *.
  assert (Hf2 : file (lastLocation lx2) = file (lastLocation lx))
    by (unfold lx2; cbn; rewrite Hloc1; reflexivity).
  destruct (isalpha (last_char lx2)).
  - destruct (lexIdentifier R (S fuel) _) as [lx3| |] eqn:E2; try discriminate.
    injection H as _ <-.
    destruct (lexIdentifier_inv _ _ _ _ _ E2) as (_ & Hloc).
    rewrite Hloc. exact Hf2.
  - destruct (isdigit (last_char lx2) || (last_char lx2 =? chr ".")).
    + destruct (lexNumber R (S fuel) _ _) as [p| |] eqn:E2; try discriminate.
      injection H as _ <-.
      destruct (lexNumber_inv _ _ _ _ _ _ E2) as (_ & Hloc).
      cbn [lastLocation with_numVal]. rewrite Hloc. exact Hf2.
    + destruct (last_char lx2 =? chr "#").
      * destruct (skipComment R (S fuel) lx2) as [lx3| |] eqn:E2;
          try discriminate.
        cbn [bind] in H.
        destruct (skipComment_inv _ _ _ _ _ E2) as (_ & Hloc).
        destruct (negb (last_char lx3 =? EOF)).
        -- rewrite (IH _ _ _ H), Hloc. exact Hf2.
        -- destruct (eofOrChar_inv _ _ _ _ _ H) as (_ & Hloc' & _).
           rewrite Hloc', Hloc. exact Hf2.
      * destruct (eofOrChar_inv _ _ _ _ _ H) as (_ & Hloc & _).
        rewrite Hloc. exact Hf2.
Qed.

(** The file name of the location never changes: after any number of
    calls it is the name the lexer was constructed with. *)
Theorem location_file :
  forall (n fuel : nat) (filename : string) (src : Source)
         (toks : list Token) (lx' : Lexer Source),
    getNextTokens R fuel n (Lexer_new filename src) = Done (toks, lx') ->
    file (getLastLocation lx') = filename.
Proof.
  intros n fuel filename src.
  change filename with (file (lastLocation (Lexer_new filename src))) at 2.
  generalize (Lexer_new filename src). clear filename src.
  induction n as [|n IH]; intros lx toks lx' H.
  - injection H as _ <-. reflexivity.
  - rewrite getNextTokens_S in H. unfold getNextToken in H.
    destruct (getTok R fuel lx) as [[t lx1]| |] eqn:E; try discriminate.
    cbn [bind fst snd] in H.
    destruct (getNextTokens R fuel n (with_curTok t lx1))
      as [[ts lx2]| |] eqn:E2; try discriminate.
    cbn [bind fst snd] in H. injection H as _ <-.
    rewrite (IH _ _ _ E2). cbn [lastLocation with_curTok].
    exact (getTok_file _ _ _ _ E).
Qed.

End Locations.

Lemma column_counts_line_characters_witness :
  lookahead LexerBuffer_readNextLine 6
    (readChar LexerBuffer_readNextLine (lexerOf (codes ("ab" ++ nl ++ "cd"))))
  = (newline :: codes "ab") ++ newline :: codes "cd"
  /\ curCol (readChars LexerBuffer_readNextLine 6
               (lexerOf (codes ("ab" ++ nl ++ "cd")))) = 2.
Proof.
  split; [reflexivity|].
  exact (column_counts_line_characters _ LexerBuffer_readNextLine
           (newline :: codes "ab") (codes "cd")
           (lexerOf (codes ("ab" ++ nl ++ "cd"))) eq_refl eq_refl eq_refl).
Defined.

Lemma token_location_witness :
  exists lx',
    getNextToken LexerBuffer_readNextLine 8
      (lexerOf (codes (nl ++ "  foo")))
    = Done (tok_identifier, lx')
    /\ getLastLocation lx' = mkLocation "input" 2 3.
Proof.
  assert (H1 : chr "f" <> chr "#") by discriminate.
  assert (H2 : chr "f" <> EOF) by discriminate.
  eexists. split; [vm_compute; reflexivity|].
  refine (token_location _ LexerBuffer_readNextLine
            (lexerOf (codes (nl ++ "  foo")))
            [chr " "; newline; newline; chr " "; chr " "] (chr "f") 8
            tok_identifier _ eq_refl eq_refl H1 H2 eq_refl _).
  vm_compute. reflexivity.
Defined.

Lemma location_file_witness :
  exists lx',
    getNextTokens LexerBuffer_readNextLine 8 2
      (LexerBuffer_new (codes "a b") "main.toy")
    = Done ([tok_identifier; tok_identifier], lx')
    /\ file (getLastLocation lx') = "main.toy"%string.
Proof.
  eexists. split; [vm_compute; reflexivity|].
  refine (location_file _ LexerBuffer_readNextLine 2 8 "main.toy"
            (codes "a b") [tok_identifier; tok_identifier] _ _).
  vm_compute. reflexivity.
Defined.

(** ** A token behind a comment *)

Section AfterComment.

Variable Source : Type.
Variable R : Source -> list Z * Source.   (* the source's [readNextLine] *)

(** A comment yields no token: when a comment that a newline or a
    carriage return ends is followed by white space and an identifier, the
    call that meets the comment returns the token of that identifier. *)
Theorem identifier_after_comment :
  forall (lx : Lexer Source) (ws body : list Z) (stop : Z) (ws2 : list Z)
         (s : string) (t : Z) (k : nat),
    forallb isspace ws = true ->
    forallb in_comment body = true ->
    ends_comment stop = true ->
    forallb isspace ws2 = true ->
    identifier_shaped s = true ->
    identifier_char t = false ->
    lookahead R
      (List.length ws
       + (S (List.length body)
          + S (List.length ws2 + (String.length s + 1)))) lx
    = ws ++ (chr "#" :: body) ++ stop :: ws2 ++ codes s ++ [t] ->
    exists lx',
      getNextToken R
        (List.length ws + List.length body + List.length ws2
         + String.length s + 3 + k) lx
      = Done (keywordOrIdentifier s, lx')
      /\ identifierStr lx' = s
      /\ last_char lx' = t.
Proof.
  intros lx ws body stop ws2 s t k Hws Hbody Hstop Hws2 Hs Ht Hla.
  destruct (ends_comment_facts stop Hstop) as (Hin & Heof & _ & Hbl).
  unfold identifier_shaped in Hs.
  pose proof (codes_length s) as Hlen. pose proof (text_codes s) as Htext.
  destruct (codes s) as [|c cs]; [discriminate|].
  apply andb_true_iff in Hs as [Hc Hcs]. cbn [List.length] in Hlen.
  rewrite <- Hlen in *.
  set (f := (List.length ws + List.length body + List.length ws2
             + List.length cs + 1 + k)%nat).
  replace (List.length ws + List.length body + List.length ws2
           + S (List.length cs) + 3 + k)%nat with (S (S (S f)))
    by (unfold f; lia).
  replace (S (List.length ws2 + (S (List.length cs) + 1)))
    with (S (List.length (ws2 ++ (c :: cs) ++ [t]))) in Hla
    by (rewrite !length_app; cbn [List.length]; lia).
  destruct (getTok_comment _ R ws body stop (ws2 ++ (c :: cs) ++ [t]) lx
              (S (S f)) Hws Hbody Hin Hla)
    as (lx3 & _ & Hla3 & Hrun); [unfold f; lia | unfold f; lia |].
  rewrite Heof in Hrun.
  replace (S (List.length (ws2 ++ (c :: cs) ++ [t])))
    with (List.length (stop :: ws2) + (S (List.length cs) + 1))%nat in Hla3
    by (rewrite !length_app; cbn [List.length]; lia).
  destruct (getTok_identifier _ R (stop :: ws2) c cs t lx3 (S f))
    as (lx' & Hrun' & Hstr & Hlast).
  - cbn [forallb]. rewrite (blank_char_isspace stop Hbl). exact Hws2.
  - exact Hc.
  - exact Hcs.
  - exact Ht.
  - exact Hla3.
  - cbn [List.length]. unfold f. lia.
  - unfold f. lia.
  - unfold getNextToken. rewrite Hrun, Hrun'. cbn [bind fst snd].
    rewrite Htext in *. eexists. split; [reflexivity|].
    split; [exact Hstr | exact Hlast].
Qed.

End AfterComment.

Lemma identifier_after_comment_witness :
  forallb isspace [chr " "; newline] = true
  /\ forallb in_comment (codes " note") = true
  /\ ends_comment newline = true
  /\ forallb isspace [chr " "] = true
  /\ identifier_shaped "var" = true
  /\ identifier_char (chr " ") = false
  /\ exists lx',
      getNextToken LexerBuffer_readNextLine 14
        (lexerOf (codes ("# note" ++ nl ++ " var x")))
      = Done (tok_var, lx')
      /\ identifierStr lx' = "var"%string
      /\ last_char lx' = chr " ".
Proof.
  repeat (split; [reflexivity|]).
  exact (identifier_after_comment _ LexerBuffer_readNextLine
           (lexerOf (codes ("# note" ++ nl ++ " var x")))
           [chr " "; newline] (codes " note") newline [chr " "] "var"
           (chr " ") 0 eq_refl eq_refl eq_refl eq_refl eq_refl eq_refl
           eq_refl).
Defined.

(** ** What is stored behind the NUL *)

Lemma live_app_NUL :
  forall s junk : list Z, live (s ++ 0 :: junk) = live (s ++ [0]).
Proof.
  induction s as [|c s IH]; intros junk; [reflexivity|].
  cbn [app live]. destruct (c =? 0); [reflexivity|].
  rewrite (IH junk). reflexivity.
Qed.

Lemma readNextLine_dead :
  forall m : list Z,
    live m = [] -> LexerBuffer_readNextLine m = ([], m).
Proof.
  intros [|c m] H; [reflexivity|].
  cbn [LexerBuffer_readNextLine live] in *.
  destruct (c =? 0); [reflexivity | discriminate H].
Qed.

Lemma readNextLine_same :
  forall m m' : list Z,
    live m = live m' ->
    fst (LexerBuffer_readNextLine m) = fst (LexerBuffer_readNextLine m')
    /\ live (snd (LexerBuffer_readNextLine m))
       = live (snd (LexerBuffer_readNextLine m')).
Proof.
  induction m as [|c m IH]; intros m' H.
  - symmetry in H. rewrite (readNextLine_dead m' H). cbn [fst snd].
    rewrite H. split; reflexivity.
  - destruct (c =? 0) eqn:E.
    + assert (Hm : live (c :: m) = []) by (cbn [live]; rewrite E; reflexivity).
      rewrite Hm in H. symmetry in H.
      rewrite (readNextLine_dead _ Hm), (readNextLine_dead m' H).
      cbn [fst snd]. rewrite Hm, H. split; reflexivity.
    + destruct m' as [|c' m'];
        [cbn [live] in H; rewrite E in H; discriminate H|].
      cbn [live] in H. rewrite E in H.
      destruct (c' =? 0) eqn:E'; [discriminate H|].
      injection H as <- H.
      cbn [LexerBuffer_readNextLine]. rewrite E.
      destruct (c =? newline); [split; [reflexivity | exact H]|].
      specialize (IH m' H).
      destruct (LexerBuffer_readNextLine m) as [l r].
      destruct (LexerBuffer_readNextLine m') as [l' r'].
      cbn [fst snd] in *. destruct IH as [-> Hr].
      split; [reflexivity | exact Hr].
Qed.

Lemma readChar_same :
  forall a b : LexerBuffer,
    same_text a b ->
    same_text (readChar LexerBuffer_readNextLine a)
      (readChar LexerBuffer_readNextLine b).
Proof.
  intros [t l i v c ln cl buf src] [t' l' i' v' c' ln' cl' buf' src'].
  unfold same_text. cbn [curTok lastLocation identifierStr numVal last_char
                           curLineNum curCol curLineBuffer source].
  intros (<- & <- & <- & <- & <- & <- & <- & <- & Hlive).
  unfold readChar, getNextChar. cbn [curLineBuffer].
  destruct buf as [|x rest]; [cbn; repeat split; exact Hlive|].
  cbn [with_curCol source curLineBuffer].
  destruct rest as [|y rest'].
  - destruct (readNextLine_same src src' Hlive) as [Hl Hr].
    destruct (LexerBuffer_readNextLine src) as [l1 r1].
    destruct (LexerBuffer_readNextLine src') as [l2 r2].
    cbn [fst snd] in *. subst l2.
    destruct (x =? newline); cbn; repeat split; exact Hr.
  - destruct (x =? newline); cbn; repeat split; exact Hlive.
Qed.

Lemma same_text_last_char :
  forall a b : LexerBuffer, same_text a b -> last_char a = last_char b.
Proof. intros a b H. apply H. Qed.

Lemma same_text_with_identifierStr :
  forall (s : string) (a b : LexerBuffer),
    same_text a b ->
    same_text (with_identifierStr s a) (with_identifierStr s b).
Proof.
  intros s a b (H1 & H2 & H3 & H4 & H5 & H6 & H7 & H8 & H9).
  unfold same_text. cbn. repeat split; assumption.
Qed.

Lemma skipWhitespace_same :
  forall (fuel : nat) (a b : LexerBuffer),
    same_text a b ->
    outcome_rel same_text
      (skipWhitespace LexerBuffer_readNextLine fuel a)
      (skipWhitespace LexerBuffer_readNextLine fuel b).
Proof.
  induction fuel as [|fuel IH]; intros a b H; [exact I|].
  cbn [skipWhitespace]. rewrite <- (same_text_last_char a b H).
  destruct (isspace (last_char a)).
  - apply IH. apply readChar_same. exact H.
  - exact H.
Qed.

Lemma lexIdentifier_same :
  forall (fuel : nat) (a b : LexerBuffer),
    same_text a b ->
    outcome_rel same_text
      (lexIdentifier LexerBuffer_readNextLine fuel a)
      (lexIdentifier LexerBuffer_readNextLine fuel b).
Proof.
  induction fuel as [|fuel IH]; intros a b H; [exact I|].
  cbn [lexIdentifier]. pose proof (readChar_same a b H) as Hr.
  rewrite <- (same_text_last_char _ _ Hr).
  destruct (isalnum (last_char (readChar LexerBuffer_readNextLine a))
            || (last_char (readChar LexerBuffer_readNextLine a) =? chr "_")).
  - apply IH.
    replace (identifierStr (readChar LexerBuffer_readNextLine b))
      with (identifierStr (readChar LexerBuffer_readNextLine a))
      by apply Hr.
    apply same_text_with_identifierStr. exact Hr.
  - exact Hr.
Qed.

Lemma lexNumber_same :
  forall (fuel : nat) (numStr : string) (a b : LexerBuffer),
    same_text a b ->
    outcome_rel (fun r r' => fst r = fst r' /\ same_text (snd r) (snd r'))
      (lexNumber LexerBuffer_readNextLine fuel numStr a)
      (lexNumber LexerBuffer_readNextLine fuel numStr b).
Proof.
  induction fuel as [|fuel IH]; intros numStr a b H; [exact I|].
  cbn [lexNumber]. pose proof (readChar_same a b H) as Hr.
  rewrite <- (same_text_last_char _ _ Hr), <- (same_text_last_char _ _ H).
  destruct (isdigit (last_char (readChar LexerBuffer_readNextLine a))
            || (last_char (readChar LexerBuffer_readNextLine a) =? chr ".")).
  - apply IH. exact Hr.
  - split; [reflexivity | exact Hr].
Qed.

Lemma skipComment_same :
  forall (fuel : nat) (a b : LexerBuffer),
    same_text a b ->
    outcome_rel same_text
      (skipComment LexerBuffer_readNextLine fuel a)
      (skipComment LexerBuffer_readNextLine fuel b).
Proof.
  induction fuel as [|fuel IH]; intros a b H; [exact I|].
  cbn [skipComment]. pose proof (readChar_same a b H) as Hr.
  rewrite <- (same_text_last_char _ _ Hr).
  destruct (negb (last_char (readChar LexerBuffer_readNextLine a) =? EOF)
            && negb (last_char (readChar LexerBuffer_readNextLine a)
                     =? newline)
            && negb (last_char (readChar LexerBuffer_readNextLine a)
                     =? carriage_return)).
  - apply IH. exact Hr.
  - exact Hr.
Qed.

Lemma same_text_located :
  forall a b : LexerBuffer,
    same_text a b ->
    same_text
      (with_lastLocation
         (mkLocation (file (lastLocation a)) (curLineNum a) (curCol a)) a)
      (with_lastLocation
         (mkLocation (file (lastLocation b)) (curLineNum b) (curCol b)) b).
Proof.
  intros a b (H1 & H2 & H3 & H4 & H5 & H6 & H7 & H8 & H9).
  unfold same_text. cbn. rewrite H2, H6, H7. repeat split; assumption.
Qed.

Lemma same_text_with_numVal :
  forall (v : Q) (a b : LexerBuffer),
    same_text a b -> same_text (with_numVal v a) (with_numVal v b).
Proof.
  intros v a b (H1 & H2 & H3 & H4 & H5 & H6 & H7 & H8 & H9).
  unfold same_text. cbn. repeat split; assumption.
Qed.

Lemma same_text_with_curTok :
  forall (t : Token) (a b : LexerBuffer),
    same_text a b -> same_text (with_curTok t a) (with_curTok t b).
Proof.
  intros t a b (H1 & H2 & H3 & H4 & H5 & H6 & H7 & H8 & H9).
  unfold same_text. cbn. repeat split; assumption.
Qed.

Lemma eofOrChar_same :
  forall a b : LexerBuffer,
    same_text a b ->
    outcome_rel (fun r r' => fst r = fst r' /\ same_text (snd r) (snd r'))
      (eofOrChar LexerBuffer_readNextLine a)
      (eofOrChar LexerBuffer_readNextLine b).
Proof.
  intros a b H. unfold eofOrChar. rewrite <- (same_text_last_char a b H).
  destruct (last_char a =? EOF); cbn.
  - split; [reflexivity | exact H].
  - split; [reflexivity | apply readChar_same; exact H].
Qed.

Ltac same_outcomes Hs m1 m2 :=
  let x := fresh "a" in
  let y := fresh "b" in
  destruct m1 as [x| |], m2 as [y| |];
  cbn [outcome_rel bind] in Hs |- *; try contradiction; try exact Hs;
  try exact I.

Lemma getTok_same :
  forall (fuel : nat) (a b : LexerBuffer),
    same_text a b ->
    outcome_rel (fun r r' => fst r = fst r' /\ same_text (snd r) (snd r'))
      (getTok LexerBuffer_readNextLine fuel a)
      (getTok LexerBuffer_readNextLine fuel b).
Proof.
  induction fuel as [|fuel IH]; intros a b H; [exact I|].
  rewrite !getTok_S.
  pose proof (skipWhitespace_same (S fuel) a b H) as Hs.
  same_outcomes Hs (skipWhitespace LexerBuffer_readNextLine (S fuel) a)
    (skipWhitespace LexerBuffer_readNextLine (S fuel) b).
  cbv zeta. pose proof (same_text_located _ _ Hs) as H2.
  set (a2 := with_lastLocation _ a0) in *.
  set (b2 := with_lastLocation _ b0) in *.
  rewrite <- (same_text_last_char a2 b2 H2).
  destruct (isalpha (last_char a2)).
  - pose proof (lexIdentifier_same (S fuel) _ _
                  (same_text_with_identifierStr
                     (String (to_char (last_char a2)) "") _ _ H2)) as Hi.
    same_outcomes Hi
      (lexIdentifier LexerBuffer_readNextLine (S fuel)
         (with_identifierStr (String (to_char (last_char a2)) "") a2))
      (lexIdentifier LexerBuffer_readNextLine (S fuel)
         (with_identifierStr (String (to_char (last_char a2)) "") b2)).
    cbn [fst snd]. split; [|exact Hi].
    f_equal. apply Hi.
  - destruct (isdigit (last_char a2) || (last_char a2 =? chr ".")).
    + pose proof (lexNumber_same (S fuel) "" _ _ H2) as Hn.
      same_outcomes Hn
        (lexNumber LexerBuffer_readNextLine (S fuel) "" a2)
        (lexNumber LexerBuffer_readNextLine (S fuel) "" b2).
      destruct a1 as [s1 x1], b1 as [s2 x2]. cbn [fst snd] in *.
      destruct Hn as [<- Hn]. split; [reflexivity|].
      apply same_text_with_numVal. exact Hn.
    + destruct (last_char a2 =? chr "#").
      * pose proof (skipComment_same (S fuel) _ _ H2) as Hc.
        same_outcomes Hc
          (skipComment LexerBuffer_readNextLine (S fuel) a2)
          (skipComment LexerBuffer_readNextLine (S fuel) b2).
        rewrite <- (same_text_last_char _ _ Hc).
        destruct (negb (last_char a1 =? EOF)).
        -- apply IH. exact Hc.
        -- apply eofOrChar_same. exact Hc.
      * apply eofOrChar_same. exact H2.
Qed.

Lemma getNextToken_same :
  forall (fuel : nat) (a b : LexerBuffer),
    same_text a b ->
    outcome_rel (fun r r' => fst r = fst r' /\ same_text (snd r) (snd r'))
      (getNextToken LexerBuffer_readNextLine fuel a)
      (getNextToken LexerBuffer_readNextLine fuel b).
Proof.
  intros fuel a b H. unfold getNextToken.
  pose proof (getTok_same fuel a b H) as Hs.
  same_outcomes Hs (getTok LexerBuffer_readNextLine fuel a)
    (getTok LexerBuffer_readNextLine fuel b).
  destruct a0 as [t1 x1], b0 as [t2 x2]. cbn [fst snd] in *.
  destruct Hs as [<- Hs].
  split; [reflexivity | apply same_text_with_curTok; exact Hs].
Qed.

Lemma getNextTokens_same :
  forall (n fuel : nat) (a b : LexerBuffer),
    same_text a b ->
    outcome_rel (fun r r' => fst r = fst r' /\ same_text (snd r) (snd r'))
      (getNextTokens LexerBuffer_readNextLine fuel n a)
      (getNextTokens LexerBuffer_readNextLine fuel n b).
Proof.
  induction n as [|n IH]; intros fuel a b H.
  - cbn. split; [reflexivity | exact H].
  - rewrite !getNextTokens_S.
    pose proof (getNextToken_same fuel a b H) as Hs.
    same_outcomes Hs (getNextToken LexerBuffer_readNextLine fuel a)
      (getNextToken LexerBuffer_readNextLine fuel b).
    destruct a0 as [t1 x1], b0 as [t2 x2]. cbn [fst snd] in *.
    destruct Hs as [<- Hs].
    pose proof (IH fuel _ _ Hs) as Hr.
    same_outcomes Hr
      (getNextTokens LexerBuffer_readNextLine fuel n x1)
      (getNextTokens LexerBuffer_readNextLine fuel n x2).
    destruct a0 as [ts1 y1], b0 as [ts2 y2]. cbn [fst snd] in *.
    destruct Hr as [<- Hr]. split; [reflexivity | exact Hr].
Qed.

(** What is stored behind the first NUL of the buffer is never looked at:
    two buffers with the same text before their first NUL give the same
    tokens, and lexers that agree on the current token, its location, the
    identifier, the value, the lookahead and the counters, call after
    call. *)
Theorem bytes_behind_NUL_ignored :
  forall (s junk : list Z) (filename : string) (fuel n : nat),
    outcome_rel (fun r r' => fst r = fst r' /\ same_text (snd r) (snd r'))
      (getNextTokens LexerBuffer_readNextLine fuel n
         (LexerBuffer_new (s ++ 0 :: junk) filename))
      (getNextTokens LexerBuffer_readNextLine fuel n
         (LexerBuffer_new (s ++ [0]) filename)).
Proof.
  intros s junk filename fuel n. apply getNextTokens_same.
  unfold same_text. cbn. repeat split. apply live_app_NUL.
Qed.

(** A character of the value of [EOF] (the byte 0xff where [char] is
    signed) that is met where a token would start ends the token stream:
    the end-of-input token is returned, for ever, and what follows in the
    buffer is never read. *)
Theorem EOF_character_ends_input :
  forall (ws rest : list Z) (filename : string) (n k : nat),
    forallb isspace ws = true ->
    exists lx',
      getNextTokens LexerBuffer_readNextLine (List.length ws + 3 + k) n
        (LexerBuffer_new (ws ++ EOF :: rest) filename)
      = Done (repeat tok_eof n, lx').
Proof.
  intros ws rest filename n k Hws.
  destruct n as [|n]; [eexists; reflexivity|].
  set (lx := LexerBuffer_new (ws ++ EOF :: rest) filename).
  assert (Hlive : live (ws ++ EOF :: rest) = ws ++ EOF :: live rest).
  { clear lx. induction ws as [|w ws IH]; [reflexivity|].
    cbn [forallb] in Hws. apply andb_true_iff in Hws as [Hw Hws].
    cbn [app live]. destruct (w =? 0) eqn:E;
      [apply Z.eqb_eq in E; subst w; discriminate Hw|].
    rewrite (IH Hws). reflexivity. }
  assert (Hla : lookahead LexerBuffer_readNextLine
                  (S (S (List.length (live (ws ++ EOF :: rest)))) + 0) lx
                = chr " " :: newline :: live (ws ++ EOF :: rest)
                  ++ repeat EOF 0).
  { apply (lookahead_pending_then_EOF
             (newline :: live (ws ++ EOF :: rest)) 0 lx); [reflexivity|].
    intros H. discriminate H. }
  rewrite Hlive in Hla.
  assert (Hla' : lookahead LexerBuffer_readNextLine
                   (List.length (chr " " :: newline :: ws) + 1) lx
                 = (chr " " :: newline :: ws) ++ [EOF]).
  { rewrite lookahead_plus.
    replace (S (S (List.length (ws ++ EOF :: live rest))) + 0)%nat
      with (List.length (chr " " :: newline :: ws)
            + S (List.length (live rest)))%nat in Hla
      by (rewrite length_app; cbn [List.length]; lia).
    replace (chr " " :: newline :: (ws ++ EOF :: live rest) ++ repeat EOF 0)
      with ((chr " " :: newline :: ws) ++ EOF :: live rest) in Hla
      by (cbn [repeat app]; rewrite app_nil_r; reflexivity).
    apply lookahead_app in Hla as [Ha Hb]. rewrite Ha. f_equal.
    set (lx2 := readChars LexerBuffer_readNextLine _ lx) in *.
    cbn [lookahead] in Hb |- *. injection Hb as Hb _. rewrite Hb.
    reflexivity. }
  destruct (getTok_whitespace_EOF _ LexerBuffer_readNextLine
              (chr " " :: newline :: ws) lx (List.length ws + 2 + k))
    as (lx1 & Hrun & Hlast).
  - cbn [forallb]. exact Hws.
  - exact Hla'.
  - cbn [List.length]. lia.
  - replace (List.length ws + 3 + k)%nat
      with (S (List.length ws + 2 + k)) by lia.
    rewrite getNextTokens_S. unfold getNextToken at 1. rewrite Hrun.
    cbn [bind fst snd].
    rewrite getNextTokens_at_EOF by exact Hlast.
    cbn [bind fst snd]. eexists. reflexivity.
Qed.

Lemma EOF_character_ends_input_witness :
  forallb isspace (codes " ") = true
  /\ exists lx',
      getNextTokens LexerBuffer_readNextLine 4 2
        (LexerBuffer_new (codes " " ++ EOF :: codes "def") "input")
      = Done ([tok_eof; tok_eof], lx').
Proof.
  split; [reflexivity|].
  exact (EOF_character_ends_input (codes " ") (codes "def") "input" 2 0
           eq_refl).
Defined.

(** ** The counters over a pass *)

Section Counters.

Variable Source : Type.
Variable R : Source -> list Z * Source.   (* the source's [readNextLine] *)

(** One step never takes the position back: the line grows, or the line
    stays and the column does not decrease; and the column stays at 0 or
    above. *)
Lemma readChar_position_order :
  forall lx : Lexer Source,
    0 <= curCol lx ->
    (curLineNum lx < curLineNum (readChar R lx)
     \/ (curLineNum (readChar R lx) = curLineNum lx
         /\ curCol lx <= curCol (readChar R lx)))
    /\ 0 <= curCol (readChar R lx).
Proof.
  intros lx H.
  destruct (readChar_cases _ R lx) as [(_ & Hl & Hk)|(Hl & Hk)];
    rewrite Hl, Hk.
  - split; [right; split; [reflexivity | lia] | exact H].
  - destruct (last_char (readChar R lx) =? newline).
    + split; [left; lia | lia].
    + split; [right; split; [reflexivity | lia] | lia].
Qed.

Lemma readChars_position_order :
  forall (n : nat) (lx : Lexer Source),
    0 <= curCol lx ->
    (curLineNum lx < curLineNum (readChars R n lx)
     \/ (curLineNum (readChars R n lx) = curLineNum lx
         /\ curCol lx <= curCol (readChars R n lx)))
    /\ 0 <= curCol (readChars R n lx).
Proof.
  induction n as [|n IH]; intros lx H.
  - cbn [readChars]. split; [right; split; [reflexivity | lia] | exact H].
  - cbn [readChars].
    destruct (readChar_position_order lx H) as [Hstep Hcol].
    destruct (IH (readChar R lx) Hcol) as [Hrest Hcol'].
    split; [|exact Hcol'].
    destruct Hstep as [Hlt|[Heq Hle]], Hrest as [Hlt'|[Heq' Hle']].
    + left. lia.
    + left. lia.
    + left. lia.
    + right. split; lia.
Qed.

(** C7: within a pass the position never goes back.  Over any number of
    character-advance steps the line counter does not decrease, and as
    long as the line counter stands the column counter does not decrease
    either; the column counter is never negative.  At a step that takes a
    character the column counter is zero afterwards exactly when that
    character is a newline, and then the line counter has grown by one;
    for any other character the line counter stands and the column counter
    has grown by one.  A step at the end of the input changes nothing. *)
Theorem counters_never_go_back :
  forall (lx : Lexer Source) (n : nat),
    0 <= getCol lx ->
    getLine lx <= getLine (readChars R n lx)
    /\ (getLine (readChars R n lx) = getLine lx ->
        getCol lx <= getCol (readChars R n lx))
    /\ 0 <= getCol (readChars R n lx)
    /\ match curLineBuffer lx with
       | [] => getNextChar R lx = (EOF, lx)
       | c :: _ =>
           fst (getNextChar R lx) = c
           /\ (getCol (snd (getNextChar R lx)) = 0 <-> c = newline)
           /\ (c = newline ->
               getLine (snd (getNextChar R lx)) = getLine lx + 1)
           /\ (c <> newline ->
               getLine (snd (getNextChar R lx)) = getLine lx
               /\ getCol (snd (getNextChar R lx)) = getCol lx + 1)
       end.
Proof.
  intros lx n H. unfold getLine, getCol in *.
  destruct (readChars_position_order n lx H) as [Hord Hcol].
  split; [destruct Hord as [Hlt|[Heq _]]; lia|].
  split; [intros Heq; destruct Hord as [Hlt|[_ Hle]]; [lia | exact Hle]|].
  split; [exact Hcol|].
  destruct (curLineBuffer lx) as [|c rest] eqn:E.
  - apply getNextChar_empty. exact E.
  - destruct (getNextChar_cons _ R lx c rest E) as (Hc & Hl & Hk).
    split; [exact Hc|]. rewrite Hl, Hk.
    destruct (Z.eqb_spec c newline) as [Heq|Hne].
    + split; [split; intros _; [exact Heq | reflexivity]|].
      split; [intros _; reflexivity | intros Hc'; contradiction].
    + split; [split; intros Hc'; [lia | contradiction]|].
      split; [intros Hc'; contradiction | intros _; split; reflexivity].
Qed.

End Counters.

Lemma counters_never_go_back_witness :
  0 <= getCol (readChars LexerBuffer_readNextLine 4
                 (lexerOf (codes ("abc" ++ nl ++ "d"))))
  /\ getLine (readChars LexerBuffer_readNextLine 4
                (lexerOf (codes ("abc" ++ nl ++ "d")))) = 1
  /\ getCol (readChars LexerBuffer_readNextLine 4
               (lexerOf (codes ("abc" ++ nl ++ "d")))) = 3
  /\ getLine (readChars LexerBuffer_readNextLine 2
                (readChars LexerBuffer_readNextLine 4
                   (lexerOf (codes ("abc" ++ nl ++ "d"))))) = 2
  /\ 1 <= getLine (readChars LexerBuffer_readNextLine 2
                     (readChars LexerBuffer_readNextLine 4
                        (lexerOf (codes ("abc" ++ nl ++ "d")))))
  /\ (getCol (snd (getNextChar LexerBuffer_readNextLine
                     (readChars LexerBuffer_readNextLine 4
                        (lexerOf (codes ("abc" ++ nl ++ "d")))))) = 0
      <-> newline = newline).
Proof.
  assert (H : 0 <= getCol (readChars LexerBuffer_readNextLine 4
                             (lexerOf (codes ("abc" ++ nl ++ "d")))))
    by (vm_compute; discriminate).
  split; [exact H|]. split; [reflexivity|]. split; [reflexivity|].
  split; [reflexivity|].
  pose proof (counters_never_go_back _ LexerBuffer_readNextLine
                (readChars LexerBuffer_readNextLine 4
                   (lexerOf (codes ("abc" ++ nl ++ "d")))) 2 H)
    as (Hline & _ & _ & Hstep).
  split; [exact Hline|].
  exact (proj1 (proj2 Hstep)).
Defined.

(** ** A comment that runs to the end of the input *)

Lemma passes_over_comment :
  forall r : list Z,
    passes_over true r = Some false ->
    exists b1 stop r',
      r = b1 ++ stop :: r'
      /\ forallb in_comment b1 = true
      /\ ends_comment stop = true
      /\ passes_over false r' = Some false.
Proof.
  induction r as [|c r IH]; intros H; [discriminate H|].
  cbn [passes_over] in H.
  destruct (c =? EOF) eqn:Eeof; [discriminate H|].
  destruct (ends_comment c) eqn:Eend; cbn [negb] in H.
  - exists [], c, r. repeat split; assumption.
  - destruct (IH H) as (b1 & stop & r' & Heq & Hb1 & Hstop & Hr').
    exists (c :: b1), stop, r'. cbn [app forallb]. rewrite Heq, Hb1.
    repeat split; try assumption.
    unfold in_comment, ends_comment in *. rewrite Eeof.
    destruct (c =? newline); [discriminate|].
    destruct (c =? carriage_return); [discriminate|]. reflexivity.
Qed.

Lemma passes_over_split :
  forall pre : list Z,
    passes_over false pre = Some false ->
    exists ws tail,
      pre = ws ++ tail
      /\ forallb isspace ws = true
      /\ (tail = []
          \/ exists b1 stop r',
               tail = chr "#" :: b1 ++ stop :: r'
               /\ forallb in_comment b1 = true
               /\ ends_comment stop = true
               /\ passes_over false r' = Some false).
Proof.
  induction pre as [|c pre IH]; intros H.
  - exists [], []. repeat split. left. reflexivity.
  - cbn [passes_over] in H. destruct (c =? chr "#") eqn:E.
    + apply Z.eqb_eq in E. subst c. exists [], (chr "#" :: pre).
      repeat split. right.
      destruct (passes_over_comment pre H)
        as (b1 & stop & r' & Heq & Hb1 & Hstop & Hr').
      exists b1, stop, r'. rewrite Heq. repeat split; assumption.
    + destruct (isspace c) eqn:Esp; [|discriminate H].
      destruct (IH H) as (ws & tail & Heq & Hws & Htail).
      exists (c :: ws), tail. cbn [app forallb]. rewrite Esp, Hws, Heq.
      repeat split. exact Htail.
Qed.

(** White space is passed over. *)
Lemma whitespace_passes_over :
  forall ws : list Z,
    forallb isspace ws = true -> passes_over false ws = Some false.
Proof.
  induction ws as [|c ws IH]; intros H; [reflexivity|].
  cbn [forallb] in H. apply andb_true_iff in H as [Hc H].
  cbn [passes_over]. rewrite Hc, (IH H).
  destruct (Z.eqb_spec c (chr "#")) as [->|_]; [discriminate Hc | reflexivity].
Qed.

Section UnterminatedComment.

Variable Source : Type.
Variable R : Source -> list Z * Source.   (* the source's [readNextLine] *)

Lemma readChars_lastLocation :
  forall (n : nat) (lx : Lexer Source),
    lastLocation (readChars R n lx) = lastLocation lx.
Proof.
  induction n as [|n IH]; intros lx; [reflexivity|].
  cbn [readChars]. rewrite IH.
  destruct (readChar_frame _ R lx) as (_ & Hloc & _). exact Hloc.
Qed.

(** [getTok_comment], with the state in which the scan goes on. *)
Lemma getTok_comment_at :
  forall (ws body : list Z) (stop : Z) (rest : list Z)
         (lx : Lexer Source) (fuel : nat),
    forallb isspace ws = true ->
    forallb in_comment body = true ->
    in_comment stop = false ->
    lookahead R (List.length ws + (S (List.length body) + S (List.length rest))) lx
    = ws ++ (chr "#" :: body) ++ stop :: rest ->
    (List.length ws <= fuel)%nat ->
    (List.length body <= fuel)%nat ->
    let lx1 := readChars R (List.length ws) lx in
    let lx3 :=
      with_lastLocation
        (mkLocation (file (lastLocation lx)) (curLineNum lx1) (curCol lx1))
        (readChars R (List.length ws + S (List.length body)) lx) in
    last_char lx3 = stop
    /\ lookahead R (S (List.length rest)) lx3 = stop :: rest
    /\ getTok R (S fuel) lx
       = (if stop =? EOF then Done (tok_eof, lx3) else getTok R fuel lx3).
Proof.
  intros ws body stop rest lx fuel Hws Hbody Hstop Hla Hfw Hfb lx1 lx3.
  apply lookahead_app in Hla as [Hla Hrest]. fold lx1 in Hrest.
  change (S (List.length body)) with (List.length (chr "#" :: body)) in Hrest.
  apply lookahead_app in Hrest as [Hhash Hrest].
  cbn [List.length lookahead] in Hhash. injection Hhash as Hhash Hbody_la.
  cbn [List.length readChars] in Hrest.
  assert (Hstate : readChars R (List.length ws + S (List.length body)) lx
                   = readChars R (List.length body) (readChar R lx1)).
  { rewrite readChars_plus. reflexivity. }
  assert (Hlast : last_char (readChars R (List.length body) (readChar R lx1))
                  = stop).
  { cbn [lookahead] in Hrest. injection Hrest as Hrest _. exact Hrest. }
  unfold lx3. rewrite Hstate.
  split; [exact Hlast|]. split.
  { rewrite lookahead_with_lastLocation. exact Hrest. }
  rewrite getTok_S.
  rewrite (skipWhitespace_spec _ R ws lx (S fuel) Hws Hla);
    [|fold lx1; rewrite Hhash; reflexivity | lia].
  fold lx1. cbn [bind]. cbv zeta.
  replace (file (lastLocation lx1)) with (file (lastLocation lx))
    by (unfold lx1; rewrite readChars_lastLocation; reflexivity).
  set (loc := mkLocation (file (lastLocation lx)) (curLineNum lx1) (curCol lx1)).
  cbn [last_char with_lastLocation]. rewrite Hhash.
  change (isalpha (chr "#")) with false.
  change (isdigit (chr "#") || (chr "#" =? chr ".")) with false.
  change (chr "#" =? chr "#") with true. cbv iota.
  rewrite (skipComment_spec _ R body (with_lastLocation loc lx1) (S fuel) Hbody).
  - cbn [bind]. cbn [readChars].
    rewrite readChar_with_lastLocation, readChars_with_lastLocation.
    cbn [last_char with_lastLocation]. rewrite Hlast.
    unfold eofOrChar. cbn [last_char with_lastLocation]. rewrite Hlast.
    destruct (stop =? EOF); reflexivity.
  - rewrite readChar_with_lastLocation, lookahead_with_lastLocation.
    exact Hbody_la.
  - cbn [readChars].
    rewrite readChar_with_lastLocation, readChars_with_lastLocation.
    cbn [last_char with_lastLocation]. rewrite Hlast. exact Hstop.
  - lia.
Qed.

(** White space and whole comments, then a comment that runs to the end of
    the input: the call returns the end-of-input token, and the location
    it leaves is the one of the [#] of that last comment. *)
Lemma getTok_unterminated_comment :
  forall (n : nat) (pre body : list Z) (lx : Lexer Source) (fuel : nat),
    (List.length pre <= n)%nat ->
    passes_over false pre = Some false ->
    forallb (fun c => negb (ends_comment c)) body = true ->
    lookahead R (List.length pre + (S (List.length body) + 1)) lx
    = pre ++ (chr "#" :: body) ++ [EOF] ->
    (List.length pre + List.length body < fuel)%nat ->
    exists lx',
      getTok R fuel lx = Done (tok_eof, lx')
      /\ last_char lx' = EOF
      /\ lastLocation lx'
         = mkLocation (file (lastLocation lx))
             (curLineNum (readChars R (List.length pre) lx))
             (curCol (readChars R (List.length pre) lx)).
Proof.
  induction n as [|n IH]; intros pre body lx fuel Hn Hpre Hbody Hla Hfuel;
    (destruct fuel as [|fuel]; [lia|]);
    destruct (passes_over_split pre Hpre) as (ws & tail & Heq & Hws & Htail);
    (destruct Htail as [-> | (c1 & stop & r' & -> & Hc1 & Hstop & Hr')];
     [ rewrite app_nil_r in Heq; subst pre;
       destruct (first_EOF body Hbody) as (b1 & rest & Hsplit & Hb1 & Hlen);
       assert (Hlen' : (S (List.length body) + 1
                        = S (List.length b1) + S (List.length rest))%nat)
         by (apply (f_equal (@List.length Z)) in Hsplit;
             rewrite !length_app in Hsplit; simpl in Hsplit; lia);
       rewrite Hlen' in Hla;
       replace (ws ++ (chr "#" :: body) ++ [EOF])
         with (ws ++ (chr "#" :: b1) ++ EOF :: rest) in Hla
         by (cbn [app]; rewrite Hsplit; reflexivity);
       destruct (getTok_comment_at ws b1 EOF rest lx fuel Hws Hb1 eq_refl Hla)
         as (Hlast & _ & Hrun); [lia | lia |];
       rewrite Hrun; change (EOF =? EOF) with true; cbv iota;
       eexists; split; [reflexivity|]; split; [exact Hlast | reflexivity]
     | ]).
  - subst pre. rewrite length_app in Hn. simpl in Hn. lia.
  - subst pre. destruct (ends_comment_facts stop Hstop) as (Hin & Heof & Hhash & Hbl).
    rewrite !length_app in Hn, Hfuel, Hla. cbn [List.length] in Hn, Hfuel, Hla.
    rewrite !length_app in Hn, Hfuel, Hla. cbn [List.length] in Hn, Hfuel, Hla.
    set (rest := r' ++ (chr "#" :: body) ++ [EOF]).
    assert (Hrest : List.length rest
                    = (List.length r' + (S (List.length body) + 1))%nat)
      by (unfold rest; rewrite !length_app; cbn [List.length]; lia).
    replace (List.length ws + S (List.length c1 + S (List.length r'))
             + (S (List.length body) + 1))%nat
      with (List.length ws + (S (List.length c1) + S (List.length rest)))%nat
      in Hla by lia.
    replace ((ws ++ chr "#" :: c1 ++ stop :: r') ++ (chr "#" :: body) ++ [EOF])
      with (ws ++ (chr "#" :: c1) ++ stop :: rest) in Hla
      by (unfold rest; rewrite <- !app_assoc; cbn [app];
          rewrite <- !app_assoc; reflexivity).
    destruct (getTok_comment_at ws c1 stop rest lx fuel Hws Hc1 Hin Hla)
      as (Hlast & Hla3 & Hrun); [lia | lia |].
    rewrite Hrun, Heof.
    set (lx3 := with_lastLocation _ _) in *.
    destruct (IH (stop :: r') body lx3 fuel) as (lx' & Hrun' & Hlast' & Hloc).
    + cbn [List.length]. lia.
    + cbn [passes_over]. rewrite Hhash, (blank_char_isspace stop Hbl).
      exact Hr'.
    + exact Hbody.
    + replace (List.length (stop :: r') + (S (List.length body) + 1))%nat
        with (S (List.length rest)) by (rewrite Hrest; cbn [List.length]; lia).
      exact Hla3.
    + cbn [List.length]. lia.
    + exists lx'. split; [exact Hrun'|]. split; [exact Hlast'|].
      rewrite Hloc. unfold lx3.
      rewrite readChars_with_lastLocation.
      cbn [lastLocation curLineNum curCol with_lastLocation file].
      rewrite <- readChars_plus.
      replace (List.length ws + S (List.length c1) + List.length (stop :: r'))%nat
        with (List.length (ws ++ chr "#" :: c1 ++ stop :: r'))
        by (rewrite !length_app; cbn [List.length];
            rewrite !length_app; cbn [List.length]; lia).
      reflexivity.
Qed.

(** C9: when what is left of the input is a line comment that no newline
    or carriage return ends, possibly behind white space and whole
    comments (which no call stops at), the call of [getNextToken] that
    gets to that comment returns the end-of-input token itself.  No
    further scan is made: the location it leaves is the one recorded at
    the [#] of that comment, not the position of the end of the input. *)
Theorem comment_to_end_of_input :
  forall (lx : Lexer Source) (pre body : list Z) (k : nat),
    passes_over false pre = Some false ->
    forallb (fun c => negb (ends_comment c)) body = true ->
    lookahead R (List.length pre + (S (List.length body) + 1)) lx
    = pre ++ (chr "#" :: body) ++ [EOF] ->
    exists lx',
      getNextToken R (List.length pre + List.length body + 1 + k) lx
      = Done (tok_eof, lx')
      /\ getCurToken lx' = tok_eof
      /\ last_char lx' = EOF
      /\ getLastLocation lx'
         = mkLocation (file (lastLocation lx))
             (getLine (readChars R (List.length pre) lx))
             (getCol (readChars R (List.length pre) lx)).
Proof.
  intros lx pre body k Hpre Hbody Hla.
  destruct (getTok_unterminated_comment (List.length pre) pre body lx
              (List.length pre + List.length body + 1 + k)
              (le_n _) Hpre Hbody Hla)
    as (lx' & Hrun & Hlast & Hloc); [lia|].
  unfold getNextToken. rewrite Hrun. cbn [bind fst snd].
  eexists. split; [reflexivity|]. split; [reflexivity|].
  split; [exact Hlast | exact Hloc].
Qed.

End UnterminatedComment.

Lemma comment_to_end_of_input_witness :
  passes_over false (chr " " :: newline :: codes ("# a" ++ nl)) = Some false
  /\ forallb (fun c => negb (ends_comment c)) (codes " b") = true
  /\ exists lx',
      getNextToken LexerBuffer_readNextLine 9
        (lexerOf (codes ("# a" ++ nl ++ "# b")))
      = Done (tok_eof, lx')
      /\ getCurToken lx' = tok_eof
      /\ last_char lx' = EOF
      /\ getLastLocation lx' = mkLocation "input" 2 1.
Proof.
  split; [reflexivity|]. split; [reflexivity|].
  exact (comment_to_end_of_input _ LexerBuffer_readNextLine
           (lexerOf (codes ("# a" ++ nl ++ "# b")))
           (chr " " :: newline :: codes ("# a" ++ nl)) (codes " b") 0
           eq_refl eq_refl eq_refl).
Defined.
